(** * Image block tool: block data, tunes and upload reconciliation

    A shallow embedding of [src/index.ts] (class [ImageTool]) and the
    properties of its data, tune and upload logic.

    The tool keeps its data in a JavaScript object [_data] whose fields are
    read by name ([this._data.size]) and, in [isTuneActive] and [setTune],
    by a computed string key ([this._data[tuneName]]).  The object is
    therefore a finite map from the names of its own properties to
    JavaScript values, read and written as a plain object is: a name that is
    not an own property reads as the member of [Object.prototype] of that
    name, if there is one, and an assignment to [__proto__] goes to the
    accessor of the prototype.  Calls
    to the collaborators (the [Ui] module, the host's notifier, the console
    and the DOM) are recorded, in order, in a trace. *)

From Stdlib Require Import String Ascii List Bool.
From stdpp Require Import base option strings gmap fin_maps list.

Local Open Scope string_scope.

(** ** JavaScript values *)

Module Js.

(** Modelled from the spec: a file reference, [{ url: string, ... }].  Its
    declaration lives in [types/types.ts], which is not part of the sources
    at hand; the persisted shape is [file: { url: string,
    ...transport-specific fields }].  The transport's own fields are kept as
    an association list; the tool never reads them. *)
Record FileRef : Type := mkFileRef {
  url : string;
  extra : list (string * string)
}.

(** The values that the properties of the block data hold.
    [VInherited member] is the member of that name that a plain object
    inherits from [Object.prototype]: a built-in function or, for
    [__proto__], the prototype itself. *)
Inductive value : Type :=
| VUndefined
| VBool (b : bool)
| VString (s : string)
| VFile (f : FileRef)
| VInherited (member : string).

#[export] Instance FileRef_eq_dec : EqDecision FileRef.
Proof. solve_decision. Defined.

#[export] Instance value_eq_dec : EqDecision value.
Proof. solve_decision. Defined.

(** [ToBoolean]: the test of [if (v)], [v || w], [v && w] and [!v]. *)
Definition truthy (v : value) : bool :=
  match v with
  | VUndefined => false
  | VBool b => b
  | VString s => negb (String.eqb s "")
  | VFile _ => true
  | VInherited _ => true
  end.

(** [ToString], as applied by ["size" + v].  A built-in function prints as
    V8 and SpiderMonkey print it. *)
Definition to_js_string (v : value) : string :=
  match v with
  | VUndefined => "undefined"
  | VBool true => "true"
  | VBool false => "false"
  | VString s => s
  | VFile _ => "[object Object]"
  | VInherited member =>
      if String.eqb member "__proto__" then "[object Object]"
      else if String.eqb member "constructor"
           then "function Object() { [native code] }"
           else "function " ++ member ++ "() { [native code] }"
  end.

(** [v.url]: the property of a file reference; a primitive has none. *)
Definition get_url (v : value) : value :=
  match v with
  | VFile f => VString (url f)
  | _ => VUndefined
  end.

(** The names of the members of [Object.prototype], which every plain
    object inherits. *)
Definition object_prototype : list string :=
  [ "constructor"; "__defineGetter__"; "__defineSetter__"; "hasOwnProperty";
    "__lookupGetter__"; "__lookupSetter__"; "isPrototypeOf";
    "propertyIsEnumerable"; "toString"; "valueOf"; "__proto__";
    "toLocaleString" ].

(** What a plain object without an own property [k] gives for [o[k]]. *)
Definition inherited (k : string) : value :=
  if existsb (String.eqb k) object_prototype then VInherited k else VUndefined.

(** [o[k]]: the own property of that name; without one, the member that the
    object inherits from [Object.prototype], or [undefined]. *)
Definition prop (o : gmap string value) (k : string) : value :=
  match o !! k with
  | Some v => v
  | None => inherited k
  end.

(** [o[k] = v] on a plain object.  The own property is written or created,
    except for the name [__proto__], an accessor of [Object.prototype]:
    unless the object has an own property of that name, the assignment runs
    the setter of the accessor, which ignores a value that is not an object
    and stores nothing.  (An object given to the setter would become the
    prototype of [o]; the tool assigns the booleans of [setTune], and the
    model does not follow a change of prototype.) *)
Definition assign (k : string) (v : value) (o : gmap string value)
    : gmap string value :=
  if String.eqb k "__proto__" then
    match o !! k with
    | Some _ => <[k := v]> o
    | None => o
    end
  else <[k := v]> o.

(** [s.startsWith(p)]. *)
Definition startsWith (s p : string) : bool := String.prefix p s.

(** [s.slice(n)] for [n] within the string. *)
Fixpoint drop_chars (n : nat) (s : string) : string :=
  match n, s with
  | O, _ => s
  | S n', String _ s' => drop_chars n' s'
  | S _, EmptyString => EmptyString
  end.

(** [s.replace(pat, rep)] for a string pattern: the first occurrence of
    [pat], if any, is replaced. *)
Fixpoint replace (s pat rep : string) : string :=
  if String.prefix pat s then rep ++ drop_chars (String.length pat) s
  else match s with
       | EmptyString => s
       | String c s' => String c (replace s' pat rep)
       end.

End Js.

Import Js.

(** ** Block data as the host persists it *)

Module ImageToolData.

(** Modelled from the spec: [SizeOptions] is declared in [types/types.ts],
    which is not part of the sources at hand; the size is one of the four
    percentages 30, 50, 70 and 100, persisted as the strings 30, 50, 70 and
    100 (the same strings that [setTune] cuts out of the tune names). *)
Inductive SizeOptions : Type := Size30 | Size50 | Size70 | Size100.

Definition size_string (s : SizeOptions) : string :=
  match s with
  | Size30 => "30"
  | Size50 => "50"
  | Size70 => "70"
  | Size100 => "100"
  end.

(** Modelled from the spec: [ImageToolData] is declared in
    [types/types.ts], which is not part of the sources at hand; the
    persisted shape is [{ caption: string, withBorder: bool,
    size: "30"|"50"|"70"|"100"|undefined, file: { url: string, ... } }]. *)
Record t : Type := mk {
  caption : string;
  withBorder : bool;
  size : option SizeOptions;
  file : FileRef
}.

Definition size_value (s : option SizeOptions) : value :=
  match s with
  | Some p => VString (size_string p)
  | None => VUndefined
  end.

(** The object that carries a well-typed block data. *)
Definition to_object (d : t) : gmap string value :=
  <["caption" := VString (caption d)]>
    (<["withBorder" := VBool (withBorder d)]>
       (<["size" := size_value (size d)]>
          (<["file" := VFile (file d)]> ∅))).

(** An object agrees with a block data when its four fields hold the
    values of the block data. *)
Definition fields_equal (o : gmap string value) (d : t) : Prop :=
  prop o "file" = VFile (file d) ∧
  prop o "caption" = VString (caption d) ∧
  prop o "withBorder" = VBool (withBorder d) ∧
  prop o "size" = size_value (size d).

End ImageToolData.

(** ** The tool *)

(** A built-in tune, [ActionConfig].  The icon, an SVG asset that only the
    tunes menu displays, is left out. *)
Record ActionConfig : Type := mkActionConfig {
  name : string;
  title : string;
  toggle : bool
}.

(** [static get tunes()] *)
Definition tunes : list ActionConfig :=
  [ mkActionConfig "withBorder" "With border" true;
    mkActionConfig "size30" "Resize to 30%" true;
    mkActionConfig "size50" "Resize to 50%" true;
    mkActionConfig "size70" "Resize to 70%" true;
    mkActionConfig "size100" "Resize to 100%" true ].

(** The calls that the tool makes on its collaborators. *)
Inductive effect : Type :=
| UiFillImage (src : string)
    (* this.ui.fillImage(url) *)
| UiApplyTune (tuneName : string) (status : value)
    (* this.ui.applyTune(tuneName, status) *)
| UiShowPreloader (src : string)
    (* this.ui.showPreloader(src) *)
| UiHidePreloader
    (* this.ui.hidePreloader() *)
| DomRemoveActiveMarker (itemName : string)
    (* document.querySelector(`.ce-popover-item[data-item-name="${itemName}"]`)
         ?.classList.remove("ce-popover-item--active") *)
| ConsoleLog (label errorText : string)
    (* console.log(label, errorText) *)
| NotifierShow (message style : string)
    (* this.api.notifier.show({ message, style }) *)
| UploaderUploadByUrl (src : string)
    (* this.uploader.uploadByUrl(url) *).

#[export] Instance effect_eq_dec : EqDecision effect.
Proof. solve_decision. Defined.

(** The mutable part of an [ImageTool] instance, and the trace of its calls
    on the collaborators (oldest first). *)
Record ImageTool : Type := mkImageTool {
  _data : gmap string value;
  isDataInit : bool;
  trace : list effect
}.

Definition emit (e : effect) (this : ImageTool) : ImageTool :=
  mkImageTool (_data this) (isDataInit this) (trace this ++ [e]).

(** [this._data[k] = v] *)
Definition set_prop (k : string) (v : value) (this : ImageTool) : ImageTool :=
  mkImageTool (assign k v (_data this)) (isDataInit this) (trace this).

Definition set_isDataInit (b : bool) (this : ImageTool) : ImageTool :=
  mkImageTool (_data this) b (trace this).

(** [get data()] *)
Definition get_data (this : ImageTool) : gmap string value := _data this.

(** [isTuneActive(name)] *)
Definition isTuneActive (this : ImageTool) (name : string) : value :=
  if negb (startsWith name "size") then prop (get_data this) name
  else if decide (prop (get_data this) "size" = VUndefined) then VBool false
  else VBool (String.eqb ("size" ++ to_js_string (prop (get_data this) "size")) name).

(** The body of the loop of [setTune] over the built-in tunes. *)
Definition deactivate_other (tuneName : string) (this : ImageTool)
    (item : ActionConfig) : ImageTool :=
  if startsWith (name item) "size"
     && negb (String.eqb (name item) tuneName)
     && truthy (isTuneActive this (name item))
  then emit (UiApplyTune (name item) (VBool false))
         (emit (DomRemoveActiveMarker (name item)) this)
  else this.

(** [setTune(tuneName, value)] *)
Definition setTune (tuneName : string) (value : value) (this : ImageTool)
    : ImageTool :=
  let this' :=
    if startsWith tuneName "size" then
      if negb (isDataInit this) then this
      else if truthy value then
        set_prop "size" (VString (replace tuneName "size" ""))
          (fold_left (deactivate_other tuneName) tunes this)
      else set_prop "size" VUndefined this
    else set_prop tuneName value this in
  emit (UiApplyTune tuneName value) this'.

(** [tuneToggled(tuneName)] *)
Definition tuneToggled (tuneName : string) (this : ImageTool) : ImageTool :=
  setTune tuneName (VBool (negb (truthy (isTuneActive this tuneName)))) this.

(** [set image(file)] *)
Definition set_image (file : value) (this : ImageTool) : ImageTool :=
  let this' :=
    set_prop "file" (if truthy file then file else VFile (mkFileRef "" [])) this in
  if truthy file && truthy (get_url file)
  then emit (UiFillImage (to_js_string (get_url file))) this'
  else this'.

(** [set data(data)] *)
Definition set_data (data : gmap string value) (this : ImageTool) : ImageTool :=
  let this1 := set_image (prop data "file") this in
  let this2 := set_prop "size" (prop data "size") this1 in
  let this3 :=
    fold_left
      (fun st tune => setTune (name tune) (isTuneActive st (name tune)) st)
      tunes this2 in
  set_isDataInit true this3.

(** [constructor({ data, ... })]: the data is seeded with its defaults, then
    the saved data is assigned to it. *)
Definition constructor (data : gmap string value) : ImageTool :=
  set_data data
    (mkImageTool
       (<["caption" := VString ""]>
          (<["withBorder" := VBool false]>
             (<["size" := VUndefined]>
                (<["file" := VFile (mkFileRef "" [])]> ∅))))
       false
       []).

(** [save()] *)
Definition save (this : ImageTool) : gmap string value := get_data this.

(** [validate(savedData)]: [!!savedData.file.url].  Reading [url] from an
    absent [file] raises a [TypeError], which is [None] here. *)
Definition validate (savedData : gmap string value) : option bool :=
  match prop savedData "file" with
  | VUndefined => None
  | file => Some (truthy (get_url file))
  end.

Section Host.

(** The host's translation function, [this.api.i18n.t]. *)
Variable i18n_t : string -> string.

(** [JSON.stringify], applied to an upload response. *)
Variable JSON_stringify : gmap string value -> string.

(** [uploadingFailed(errorText)] *)
Definition uploadingFailed (errorText : string) (this : ImageTool) : ImageTool :=
  emit UiHidePreloader
    (emit (NotifierShow (i18n_t "Couldn’t upload image. Please try another.") "error")
       (emit (ConsoleLog "Image Tool: uploading failed because of" errorText) this)).

(** [onUpload(response)] *)
Definition onUpload (response : gmap string value) (this : ImageTool) : ImageTool :=
  if truthy (prop response "success") && truthy (prop response "file")
  then set_image (prop response "file") this
  else uploadingFailed ("incorrect response: " ++ JSON_stringify response) this.

End Host.

(** [uploadUrl(url)] *)
Definition uploadUrl (src : string) (this : ImageTool) : ImageTool :=
  emit (UploaderUploadByUrl src) (emit (UiShowPreloader src) this).

(** ** Sequences of calls on a block *)

(** The calls that reach a block after its construction: a tune set or
    toggled from the tunes menu, the two callbacks of the uploader, and an
    upload by URL. *)
Inductive call : Type :=
| SetTune (tuneName : string) (status : value)
| TuneToggled (tuneName : string)
| OnUpload (response : gmap string value)
| UploadingFailed (errorText : string)
| UploadUrl (src : string).

Section Calls.

Variable i18n_t : string -> string.
Variable JSON_stringify : gmap string value -> string.

Definition run_call (this : ImageTool) (c : call) : ImageTool :=
  match c with
  | SetTune tuneName status => setTune tuneName status this
  | TuneToggled tuneName => tuneToggled tuneName this
  | OnUpload response => onUpload i18n_t JSON_stringify response this
  | UploadingFailed errorText => uploadingFailed i18n_t errorText this
  | UploadUrl src => uploadUrl src this
  end.

Definition run_calls (cs : list call) (this : ImageTool) : ImageTool :=
  fold_left run_call cs this.

End Calls.

(** ** Observations on a block *)

(** The error notifications among the calls on the collaborators. *)
Definition is_error_notification (e : effect) : bool :=
  match e with
  | NotifierShow _ style => String.eqb style "error"
  | _ => false
  end.

Definition error_notifications (l : list effect) : nat :=
  length (List.filter is_error_notification l).

(** The names of the size group. *)
Definition size_tunes : list string := ["size30"; "size50"; "size70"; "size100"].

(** The size tunes that [isTuneActive] reports as active. *)
Definition active_size_tunes (this : ImageTool) : list string :=
  List.filter (fun n => truthy (isTuneActive this n)) size_tunes.

(** The calls that name the field [caption] as their tune. *)
Definition names_caption (c : call) : bool :=
  match c with
  | SetTune tuneName _ | TuneToggled tuneName => String.eqb tuneName "caption"
  | _ => false
  end.

(** ** The tunes menu *)

(** A tune as [renderSettings] sees it: an [ActionConfig] and its optional
    [action] property, the callback of a tune that the user configured.  The
    callback receives the tune's name; what it does to the block is a state
    transformer.  The built-in tunes have no [action]. *)
Record ActionEntry : Type := mkActionEntry {
  descriptor : ActionConfig;
  action : option (string -> ImageTool -> ImageTool)
}.

Definition built_in (tune : ActionConfig) : ActionEntry := mkActionEntry tune None.

Module TunesMenuItem.

(** An entry of the [TunesMenuConfig] that [renderSettings] returns (without
    its icon).  [onActivate] is a closure over the tool: it acts on the
    state of the block at the time of the activation. *)
Record t : Type := mk {
  label : string;
  name : string;
  toggle : bool;
  isActive : value;
  onActivate : ImageTool -> ImageTool
}.

End TunesMenuItem.

Section Menu.

Variable i18n_t : string -> string.

(** The body of [onActivate] in [renderSettings]. *)
Definition activate (tune : ActionEntry) (this : ImageTool) : ImageTool :=
  match action tune with
  | Some callback => callback (name (descriptor tune)) this
  | None => tuneToggled (name (descriptor tune)) this
  end.

(** [renderSettings()], for the [actions] of the user's config
    ([this.config.actions || []]). *)
Definition renderSettings (actions : option (list ActionEntry)) (this : ImageTool)
    : list TunesMenuItem.t :=
  List.map
    (fun tune =>
       TunesMenuItem.mk
         (i18n_t (title (descriptor tune)))
         (name (descriptor tune))
         (toggle (descriptor tune))
         (isTuneActive this (name (descriptor tune)))
         (activate tune))
    (List.map built_in tunes ++ default [] actions)%list.

End Menu.

(** ** Pasting *)

Section Paste.

(** Binary content, [Blob]: opaque to the tool. *)
Variable Blob : Type.

(** [fetch(src)] followed by [response.blob()]; [None] when one of the two
    promises is rejected, which rejects [onPaste] in turn. *)
Variable fetch_blob : string -> option Blob.

(** The paste event of the host: its [type] and the part of its [detail]
    that [onPaste] reads for that type. *)
Inductive PasteEvent : Type :=
| PasteTag (src : string)          (* type "tag", detail.data.src *)
| PastePattern (data : string)     (* type "pattern", detail.data *)
| PasteFile (file : Blob)          (* type "file", detail.file *)
| PasteOther (type : string)       (* any other type *).

(** The calls of the paste handler that carry binary content. *)
Inductive network_call : Type :=
| Fetch (src : string)
    (* fetch(src) *)
| UploaderUploadByFile (file : Blob)
    (* this.uploader.uploadByFile(file, { onPreview }) *).

(** [uploadFile(file)]: the block itself is not touched. *)
Definition uploadFile (file : Blob) (this : ImageTool)
    : ImageTool * list network_call :=
  (this, [UploaderUploadByFile file]).

(** The [onPreview] callback that [uploadFile] hands to the uploader. *)
Definition onPreview (src : string) (this : ImageTool) : ImageTool :=
  emit (UiShowPreloader src) this.

(** [onPaste(event)] *)
Definition onPaste (event : PasteEvent) (this : ImageTool)
    : ImageTool * list network_call :=
  match event with
  | PasteTag src =>
      if startsWith src "blob:" then
        match fetch_blob src with
        | Some file =>
            let (this', calls) := uploadFile file this in
            (this', Fetch src :: calls)
        | None => (this, [Fetch src])
        end
      else (uploadUrl src this, [])
  | PastePattern data => (uploadUrl data this, [])
  | PasteFile file => uploadFile file this
  | PasteOther _ => (this, [])
  end.

(** The number of uploads by file among the calls of the paste handler. *)
Definition file_uploads (calls : list network_call) : nat :=
  length
    (List.filter
       (fun c => match c with UploaderUploadByFile _ => true | Fetch _ => false end)
       calls).

End Paste.

(** ** What the rendering surface was told *)

(** The status that the last [applyTune] call gave for a tune, if any. *)
Definition ui_status (l : list effect) (tuneName : string) : option value :=
  fold_left
    (fun acc e =>
       match e with
       | UiApplyTune n v => if String.eqb n tuneName then Some v else acc
       | _ => acc
       end)
    l None.

(** The uploads by URL among the calls on the collaborators. *)
Definition uploads_by_url (l : list effect) : list string :=
  omap (fun e => match e with UploaderUploadByUrl src => Some src | _ => None end) l.

(** The two calls that un-mark a size tune. *)
Definition unmark (itemName : string) : list effect :=
  [DomRemoveActiveMarker itemName; UiApplyTune itemName (VBool false)].

(** The names that the loop of [setTune] un-marks. *)
Definition others_to_unmark (tuneName : string) (this : ImageTool)
    (names : list string) : list string :=
  List.filter
    (fun m => startsWith m "size" && negb (String.eqb m tuneName)
              && truthy (isTuneActive this m))
    names.

(** The call that [set image] makes for a file: [fillImage], when the file
    is a reference with a non-empty [url]. *)
Definition shown (file : value) : list effect :=
  match file with
  | VFile f => if String.eqb (url f) "" then [] else [UiFillImage (url f)]
  | _ => []
  end.

(** The block data has the persisted shape: its four fields hold a file
    reference, the empty caption, a boolean and a size of the size group or
    none. *)
Definition persisted_shape (this : ImageTool) : Prop :=
  ∃ d : ImageToolData.t,
    ImageToolData.caption d = "" ∧ ImageToolData.fields_equal (save this) d.

(** The rendering surface was told the activity that a tune has. *)
Definition in_sync (this : ImageTool) (tuneName : string) : Prop :=
  ∃ v, ui_status (trace this) tuneName = Some v ∧
       truthy v = truthy (isTuneActive this tuneName).

(** Calls other than [applyTune] do not change what the surface was told
    about the tunes. *)
Definition quiet (e : effect) : bool :=
  match e with
  | UiApplyTune _ _ => false
  | _ => true
  end.

(** ** Well-typed calls *)

Definition built_in_name (n : string) : bool :=
  existsb (String.eqb n) (List.map name tunes).

(** A [setTune] whose status is a boolean, as its signature asks. *)
Definition boolean_status (c : call) : bool :=
  match c with
  | SetTune _ (VBool _) => true
  | SetTune _ _ => false
  | _ => true
  end.

(** A call that stays within the types: a built-in tune, a boolean status, a
    response whose [file], if any, is a file reference. *)
Definition typed_call (c : call) : bool :=
  match c with
  | SetTune n (VBool _) => built_in_name n
  | SetTune _ _ => false
  | TuneToggled n => built_in_name n
  | OnUpload response =>
      match prop response "file" with
      | VFile _ | VUndefined => true
      | _ => false
      end
  | _ => true
  end.

(** A call that cannot leave a stale size marker behind: every call but a
    [setTune] that switches a size tune off directly. *)
Definition keeps_markers (c : call) : bool :=
  match c with
  | SetTune n v => negb (startsWith n "size") || truthy v
  | _ => true
  end.

(** ** Sample data *)

Definition cat_data : ImageToolData.t :=
  ImageToolData.mk "A cat" true (Some ImageToolData.Size50)
    (mkFileRef "http://x/y.png" [("width", "640")]).

Definition captioned_data : ImageToolData.t :=
  ImageToolData.mk "A cat" false None (mkFileRef "http://x/y.png" []).

Definition plain_data : ImageToolData.t :=
  ImageToolData.mk "" false (Some ImageToolData.Size70)
    (mkFileRef "http://x/y.png" []).

Definition failed_response : gmap string value := <["success" := VBool false]> ∅.

Definition png_response : gmap string value :=
  <["success" := VBool true]>
    (<["file" := VFile (mkFileRef "http://x/y.png" [])]> ∅).

Definition empty_url_response : gmap string value :=
  <["success" := VBool true]> (<["file" := VFile (mkFileRef "" [])]> ∅).

Definition cat_block : ImageTool := constructor (ImageToolData.to_object cat_data).

(** ** Worked examples *)

Example startsWith_size50 : startsWith "size50" "size" = true.
Proof. reflexivity. Qed.

Example startsWith_withBorder : startsWith "withBorder" "size" = false.
Proof. reflexivity. Qed.

Example replace_size50 : replace "size50" "size" "" = "50".
Proof. reflexivity. Qed.

Example prop_absent : prop ({[ "size" := VString "50" ]}) "caption" = VUndefined.
Proof. reflexivity. Qed.

Example prop_inherited :
  prop ({[ "size" := VString "50" ]}) "toString" = VInherited "toString" ∧
  prop ({[ "size" := VString "50" ]}) "__proto__" = VInherited "__proto__".
Proof. split; reflexivity. Qed.

Example assign_inherited_name :
  prop (assign "toString" (VBool false) ∅) "toString" = VBool false.
Proof. reflexivity. Qed.

Example assign_proto : assign "__proto__" (VBool true) ∅ = ∅.
Proof. reflexivity. Qed.

Example cat_block_saved :
  map_to_list (save (constructor (ImageToolData.to_object cat_data))) =
  [ ("withBorder", VBool false); ("size", VString "50"); ("caption", VString "");
    ("file", VFile (mkFileRef "http://x/y.png" [("width", "640")])) ].
Proof. vm_compute. reflexivity. Qed.

Example cat_block_trace :
  trace (constructor (ImageToolData.to_object cat_data)) =
  [ UiFillImage "http://x/y.png"; UiApplyTune "withBorder" (VBool false);
    UiApplyTune "size30" (VBool false); UiApplyTune "size50" (VBool true);
    UiApplyTune "size70" (VBool false); UiApplyTune "size100" (VBool false) ].
Proof. vm_compute. reflexivity. Qed.

(** The scenario of the size group: on a fresh block, [size50] is set, then
    [size30]. *)
Example scenario_size50_then_size30 :
  let b0 := constructor ∅ in
  let b1 := setTune "size50" (VBool true) b0 in
  let b2 := setTune "size30" (VBool true) b1 in
  isTuneActive b1 "size50" = VBool true ∧
  isTuneActive b2 "size50" = VBool false ∧
  isTuneActive b2 "size30" = VBool true ∧
  trace b2 = (trace b1 ++
    [ DomRemoveActiveMarker "size50"; UiApplyTune "size50" (VBool false);
      UiApplyTune "size30" (VBool true) ])%list.
Proof. vm_compute. repeat split; reflexivity. Qed.

(** ** Properties of the values and strings *)

Section ValueFacts.

Implicit Types (o : gmap string value) (k : string) (v : value) (s p : string).

Lemma prop_insert_eq o k v : prop (<[k := v]> o) k = v.
Proof. unfold prop. by rewrite lookup_insert_eq. Qed.

Lemma prop_insert_ne o k k' v : k ≠ k' → prop (<[k := v]> o) k' = prop o k'.
Proof. intros Hne. unfold prop. by rewrite lookup_insert_ne. Qed.

Lemma assign_ne o k v : k ≠ "__proto__" → assign k v o = <[k := v]> o.
Proof.
  intros Hk. unfold assign.
  destruct (String.eqb_spec k "__proto__") as [->|_]; done.
Qed.

(** An assignment is an insertion or leaves the object as it is. *)
Lemma assign_cases o k v : assign k v o = <[k := v]> o ∨ assign k v o = o.
Proof. unfold assign. repeat case_match; auto. Qed.

Lemma prop_assign_eq o k v : k ≠ "__proto__" → prop (assign k v o) k = v.
Proof. intros Hk. rewrite assign_ne by done. apply prop_insert_eq. Qed.

Lemma prop_assign_ne o k k' v : k ≠ k' → prop (assign k v o) k' = prop o k'.
Proof.
  intros Hk. destruct (assign_cases o k v) as [-> | ->]; [|done].
  by apply prop_insert_ne.
Qed.

(** Writing back what was read changes no reading. *)
Lemma prop_assign_self o k k' : prop (assign k (prop o k) o) k' = prop o k'.
Proof.
  destruct (assign_cases o k (prop o k)) as [-> | ->]; [|done].
  destruct (decide (k = k')) as [<-|Hne].
  - apply prop_insert_eq.
  - by apply prop_insert_ne.
Qed.

Lemma assign_insert_commute o k k' v w :
  k ≠ k' → assign k v (<[k' := w]> o) = <[k' := w]> (assign k v o).
Proof.
  intros Hk. unfold assign.
  destruct (String.eqb k "__proto__"); [|by apply insert_insert_ne].
  rewrite lookup_insert_ne by done.
  destruct (o !! k); [by apply insert_insert_ne | done].
Qed.

Lemma append_nil s : "" +:+ s = s.
Proof. reflexivity. Qed.

Lemma append_cons c p s : String c p +:+ s = String c (p +:+ s).
Proof. reflexivity. Qed.

Lemma startsWith_split s p :
  startsWith s p = true → s = p +:+ drop_chars (String.length p) s.
Proof.
  unfold startsWith. revert s.
  induction p as [|c p IH]; intros s Hp.
  - rewrite append_nil. by destruct s.
  - destruct s as [|d s]; [done|]. simpl in Hp.
    destruct (ascii_dec c d) as [->|]; [|done].
    rewrite append_cons. simpl. f_equal. by apply IH.
Qed.

Lemma replace_prefix s p rep :
  startsWith s p = true → replace s p rep = rep +:+ drop_chars (String.length p) s.
Proof.
  unfold startsWith. intros Hp.
  assert (Heq : replace s p rep =
                if String.prefix p s then rep +:+ drop_chars (String.length p) s
                else match s with
                     | EmptyString => s
                     | String c s' => String c (replace s' p rep)
                     end) by (destruct s; reflexivity).
  by rewrite Heq, Hp.
Qed.

Lemma append_inj_l p s1 s2 : p +:+ s1 = p +:+ s2 → s1 = s2.
Proof.
  induction p as [|c p IH]; [by rewrite !append_nil|].
  rewrite !append_cons. intros [= H]. auto.
Qed.

(** A name of the size group is [size] followed by what [setTune] stores. *)
Lemma size_name_split s :
  startsWith s "size" = true → s = "size" +:+ replace s "size" "".
Proof.
  intros Hp. rewrite (replace_prefix _ _ _ Hp), append_nil.
  by apply (startsWith_split s "size").
Qed.

Lemma eqb_bool_decide s1 s2 : String.eqb s1 s2 = bool_decide (s1 = s2).
Proof.
  destruct (String.eqb_spec s1 s2) as [->|Hne].
  - by rewrite bool_decide_eq_true_2.
  - by rewrite bool_decide_eq_false_2.
Qed.

End ValueFacts.

(** ** The tune predicate *)

Lemma isTuneActive_field (this : ImageTool) (name : string) :
  startsWith name "size" = false →
  isTuneActive this name = prop (_data this) name.
Proof. intros Hp. unfold isTuneActive, get_data. by rewrite Hp. Qed.

Lemma isTuneActive_unset (this : ImageTool) (name : string) :
  startsWith name "size" = true → prop (_data this) "size" = VUndefined →
  isTuneActive this name = VBool false.
Proof.
  intros Hp Hs. unfold isTuneActive, get_data. rewrite Hp, Hs. cbn [negb].
  by rewrite decide_True.
Qed.

Lemma isTuneActive_set (this : ImageTool) (name s : string) :
  startsWith name "size" = true → prop (_data this) "size" = VString s →
  isTuneActive this name = VBool (bool_decide (s = replace name "size" "")).
Proof.
  intros Hp Hs. unfold isTuneActive, get_data. rewrite Hp, Hs. cbn [negb].
  rewrite decide_False by done. cbn [to_js_string]. f_equal.
  rewrite eqb_bool_decide. apply bool_decide_ext.
  rewrite (size_name_split name Hp) at 1. split.
  - apply append_inj_l.
  - by intros ->.
Qed.

(** [isTuneActive] reads the data only. *)
Lemma isTuneActive_data (this that : ImageTool) (name : string) :
  _data this = _data that → isTuneActive this name = isTuneActive that name.
Proof. intros Hd. unfold isTuneActive, get_data. by rewrite Hd. Qed.

(** C4.  [isTuneActive(name)] returns the field of that name when [name] is
    not a size tune.  For a size tune it returns [false] when [data.size] is
    unset and, when [data.size] is set, [true] exactly when [data.size] is
    the percentage that the name encodes (the name without its [size]
    prefix). *)
Theorem isTuneActive_semantics (this : ImageTool) (name : string) :
  (startsWith name "size" = false →
     isTuneActive this name = prop (_data this) name) ∧
  (startsWith name "size" = true →
     (prop (_data this) "size" = VUndefined →
        isTuneActive this name = VBool false) ∧
     (∀ s, prop (_data this) "size" = VString s →
        isTuneActive this name = VBool (bool_decide (s = replace name "size" "")))).
Proof.
  split; [apply isTuneActive_field|]. intros Hp. split.
  - by apply isTuneActive_unset.
  - intros s. by apply isTuneActive_set.
Qed.

Lemma isTuneActive_semantics_witness :
  isTuneActive cat_block "withBorder" = VBool false ∧
  isTuneActive cat_block "toString" = VInherited "toString" ∧
  isTuneActive (constructor ∅) "size50" = VBool false ∧
  isTuneActive cat_block "size50" = VBool true ∧
  isTuneActive cat_block "size30" = VBool false.
Proof.
  pose proof (isTuneActive_semantics cat_block "withBorder") as [Hwb _].
  pose proof (isTuneActive_semantics cat_block "toString") as [Hts _].
  pose proof (isTuneActive_semantics (constructor ∅) "size50") as [_ Hfresh].
  pose proof (isTuneActive_semantics cat_block "size50") as [_ H50].
  pose proof (isTuneActive_semantics cat_block "size30") as [_ H30].
  split; [|split; [|split; [|split]]].
  - rewrite Hwb by reflexivity. reflexivity.
  - rewrite Hts by reflexivity. reflexivity.
  - destruct Hfresh as [Hunset _]; [reflexivity|]. apply Hunset. reflexivity.
  - destruct H50 as [_ Hset]; [reflexivity|].
    rewrite (Hset "50") by reflexivity. reflexivity.
  - destruct H30 as [_ Hset]; [reflexivity|].
    rewrite (Hset "50") by reflexivity. reflexivity.
Defined.

(** ** Validation *)

Example validate_without_file : validate ∅ = None.
Proof. reflexivity. Qed.

Lemma validate_file (o : gmap string value) (h : FileRef) :
  prop o "file" = VFile h → validate o = Some (bool_decide (url h ≠ "")).
Proof.
  intros Ho. unfold validate. rewrite Ho. cbn [get_url truthy]. f_equal.
  rewrite eqb_bool_decide.
  destruct (decide (url h = "")) as [He|He].
  - by rewrite bool_decide_eq_true_2, bool_decide_eq_false_2 by auto.
  - by rewrite bool_decide_eq_false_2, bool_decide_eq_true_2 by auto.
Qed.

(** C7.  For a block data with a file reference, [validate] returns [true]
    exactly when the [url] of the file is not the empty string; it is
    [false] on [{file: {url: ""}}] and [true] on
    [{file: {url: "http://x/y.png"}}]; and two block data whose files have
    the same [url] are validated alike, whatever their other fields. *)
Theorem validate_correct (savedData : gmap string value) (f : FileRef) :
  prop savedData "file" = VFile f →
  validate savedData = Some (bool_decide (url f ≠ "")) ∧
  validate (<["file" := VFile (mkFileRef "" [])]> ∅) = Some false ∧
  validate (<["file" := VFile (mkFileRef "http://x/y.png" [])]> ∅) = Some true ∧
  (∀ (other : gmap string value) (g : FileRef),
     prop other "file" = VFile g → url g = url f →
     validate other = validate savedData).
Proof.
  intros Hf.
  split; [by apply validate_file|]. split; [reflexivity|]. split; [reflexivity|].
  intros other g Hg Hurl.
  rewrite (validate_file _ _ Hg), (validate_file _ _ Hf). by rewrite Hurl.
Qed.

Lemma validate_correct_witness :
  validate (ImageToolData.to_object cat_data) = Some true.
Proof.
  assert (H : prop (ImageToolData.to_object cat_data) "file"
              = VFile (ImageToolData.file cat_data)) by reflexivity.
  destruct (validate_correct _ _ H) as [Hv _].
  rewrite Hv. reflexivity.
Defined.

(** ** Frames of the state updates *)

Section Frames.

Implicit Types (this : ImageTool) (k tuneName : string) (v : value).

Lemma emit_data e this : _data (emit e this) = _data this.
Proof. reflexivity. Qed.

Lemma emit_init e this : isDataInit (emit e this) = isDataInit this.
Proof. reflexivity. Qed.

Lemma deactivate_other_data tuneName this item :
  _data (deactivate_other tuneName this item) = _data this.
Proof. unfold deactivate_other. by case_match. Qed.

Lemma deactivate_other_init tuneName this item :
  isDataInit (deactivate_other tuneName this item) = isDataInit this.
Proof. unfold deactivate_other. by case_match. Qed.

Lemma deactivate_others_data tuneName (l : list ActionConfig) this :
  _data (fold_left (deactivate_other tuneName) l this) = _data this.
Proof.
  revert this. induction l as [|item l IH]; intros this; simpl; [done|].
  by rewrite IH, deactivate_other_data.
Qed.

Lemma deactivate_others_init tuneName (l : list ActionConfig) this :
  isDataInit (fold_left (deactivate_other tuneName) l this) = isDataInit this.
Proof.
  revert this. induction l as [|item l IH]; intros this; simpl; [done|].
  by rewrite IH, deactivate_other_init.
Qed.

(** [setTune] never changes the one-shot flag. *)
Lemma setTune_init tuneName v this :
  isDataInit (setTune tuneName v this) = isDataInit this.
Proof.
  unfold setTune. rewrite emit_init.
  repeat case_match; try done.
  cbn [isDataInit set_prop]. apply deactivate_others_init.
Qed.

(** Before the flag is set, a size tune leaves the data as it is. *)
Lemma setTune_size_before_init tuneName v this :
  isDataInit this = false → startsWith tuneName "size" = true →
  _data (setTune tuneName v this) = _data this.
Proof. intros Hi Hp. unfold setTune. by rewrite Hp, Hi. Qed.

(** [setTune] writes at most one property: [size] for a size tune, the
    property of the tune's name otherwise. *)
Lemma setTune_prop_other tuneName v this k :
  k ≠ (if startsWith tuneName "size" then "size" else tuneName) →
  prop (_data (setTune tuneName v this)) k = prop (_data this) k.
Proof.
  intros Hk. unfold setTune. rewrite emit_data.
  destruct (startsWith tuneName "size").
  - destruct (negb (isDataInit this)); [done|].
    destruct (truthy v); cbn [_data set_prop].
    + by rewrite prop_assign_ne, deactivate_others_data.
    + by rewrite prop_assign_ne.
  - cbn [_data set_prop]. by rewrite prop_assign_ne.
Qed.

Lemma set_image_prop_other v this k :
  k ≠ "file" → prop (_data (set_image v this)) k = prop (_data this) k.
Proof.
  intros Hk. unfold set_image.
  destruct (truthy v && truthy (get_url v)); cbn [_data emit set_prop];
    by rewrite prop_assign_ne.
Qed.

Lemma set_image_init v this : isDataInit (set_image v this) = isDataInit this.
Proof. unfold set_image. by case_match. Qed.

Lemma set_image_file v this :
  prop (_data (set_image v this)) "file"
  = if truthy v then v else VFile (mkFileRef "" []).
Proof.
  unfold set_image.
  destruct (truthy v && truthy (get_url v)); cbn [_data emit set_prop];
    by rewrite prop_assign_eq.
Qed.

End Frames.

(** ** Restoring the saved data *)

(** The loop of [set data] over the built-in tunes, run before the flag is
    set, rewrites [withBorder] with its own value and changes nothing. *)
Lemma restore_loop_prop (this : ImageTool) (k : string) :
  isDataInit this = false →
  prop (_data (fold_left
                 (fun st tune => setTune (name tune) (isTuneActive st (name tune)) st)
                 tunes this)) k
  = prop (_data this) k.
Proof.
  intros Hi. unfold tunes. cbn [fold_left name].
  repeat (rewrite setTune_size_before_init;
          [| by rewrite ?setTune_init | reflexivity]).
  unfold setTune at 1. cbn -[prop isTuneActive]. 
  destruct (decide (k = "withBorder")) as [->|Hne].
  - by rewrite prop_insert_eq.
  - by rewrite prop_insert_ne.
Qed.

Lemma constructor_unfold (data : gmap string value) :
  constructor data =
  set_isDataInit true
    (fold_left
       (fun st tune => setTune (name tune) (isTuneActive st (name tune)) st)
       tunes
       (set_prop "size" (prop data "size")
          (set_image (prop data "file")
             (mkImageTool
                (<["caption" := VString ""]>
                   (<["withBorder" := VBool false]>
                      (<["size" := VUndefined]>
                         (<["file" := VFile (mkFileRef "" [])]> ∅))))
                false
                [])))).
Proof. reflexivity. Qed.

Lemma constructor_prop (data : gmap string value) (k : string) :
  prop (_data (constructor data)) k =
  if decide (k = "size") then prop data "size"
  else if decide (k = "file")
       then (if truthy (prop data "file") then prop data "file"
             else VFile (mkFileRef "" []))
       else if decide (k = "caption") then VString ""
            else if decide (k = "withBorder") then VBool false
                 else inherited k.
Proof.
  rewrite constructor_unfold.
  set (seeded := mkImageTool _ false []).
  assert (Hseed : ∀ k',
            prop (_data seeded) k' =
            if decide (k' = "caption") then VString ""
            else if decide (k' = "withBorder") then VBool false
                 else if decide (k' = "size") then VUndefined
                      else if decide (k' = "file") then VFile (mkFileRef "" [])
                           else inherited k').
  { intros k'. unfold seeded. cbn [_data].
    repeat (case_decide;
            [subst; by rewrite ?prop_insert_eq | rewrite prop_insert_ne by done]).
    unfold prop. by rewrite lookup_empty. }
  assert (Hi : isDataInit seeded = false) by reflexivity.
  clearbody seeded.
  assert (Hd : ∀ x, _data (set_isDataInit true x) = _data x) by reflexivity.
  assert (Hsi : ∀ a b x, isDataInit (set_prop a b x) = isDataInit x) by reflexivity.
  assert (Hsp : ∀ a b x, _data (set_prop a b x) = assign a b (_data x))
    by reflexivity.
  rewrite Hd, restore_loop_prop by (by rewrite Hsi, set_image_init).
  rewrite Hsp.
  destruct (decide (k = "size")) as [->|Hs]; [by rewrite prop_assign_eq|].
  rewrite prop_assign_ne by done.
  destruct (decide (k = "file")) as [->|Hf]; [by rewrite set_image_file|].
  rewrite set_image_prop_other by done. rewrite Hseed.
  repeat case_decide; done.
Qed.

Lemma constructor_init (data : gmap string value) :
  isDataInit (constructor data) = true.
Proof. reflexivity. Qed.

(** C9.  While the flag [isDataInit] is unset, [setTune] on a size tune
    leaves the whole block data, and so [data.size], as it is, whatever the
    value; hence the size that [set data] restores is still there when the
    construction ends. *)
Theorem setTune_size_skipped_before_init :
  (∀ (this : ImageTool) (tuneName : string) (status : value),
     isDataInit this = false → startsWith tuneName "size" = true →
     _data (setTune tuneName status this) = _data this ∧
     prop (_data (setTune tuneName status this)) "size" = prop (_data this) "size") ∧
  (∀ data : gmap string value,
     prop (_data (constructor data)) "size" = prop data "size").
Proof.
  split.
  - intros this tuneName status Hi Hp.
    by rewrite setTune_size_before_init.
  - intros data. by rewrite constructor_prop.
Qed.

Lemma setTune_size_skipped_before_init_witness :
  let fresh := mkImageTool (<["size" := VString "50"]> ∅) false [] in
  prop (_data (setTune "size30" (VBool true) fresh)) "size" = VString "50" ∧
  prop (_data (setTune "size50" (VBool false) fresh)) "size" = VString "50".
Proof.
  intros fresh.
  destruct setTune_size_skipped_before_init as [Hskip _].
  split.
  - destruct (Hskip fresh "size30" (VBool true)) as [_ Hs];
      [reflexivity | reflexivity | ].
    rewrite Hs. reflexivity.
  - destruct (Hskip fresh "size50" (VBool false)) as [_ Hs];
      [reflexivity | reflexivity | ].
    rewrite Hs. reflexivity.
Defined.

(** ** Reconciling the upload outcome *)

Lemma error_notifications_app (l1 l2 : list effect) :
  error_notifications (l1 ++ l2) = error_notifications l1 + error_notifications l2.
Proof. unfold error_notifications. by rewrite List.filter_app, length_app. Qed.

(** The two malformed responses are routed to the failure path. *)
Lemma failure_route (response : gmap string value) :
  prop response "success" = VBool false ∨ prop response "file" = VUndefined →
  truthy (prop response "success") && truthy (prop response "file") = false.
Proof. intros [-> | ->]; [reflexivity | apply andb_false_r]. Qed.

Section Upload.

Variable i18n_t : string -> string.
Variable JSON_stringify : gmap string value -> string.

Lemma uploadingFailed_frame (errorText : string) (this : ImageTool) :
  _data (uploadingFailed i18n_t errorText this) = _data this ∧
  isDataInit (uploadingFailed i18n_t errorText this) = isDataInit this ∧
  trace (uploadingFailed i18n_t errorText this) =
    (trace this ++
       [ ConsoleLog "Image Tool: uploading failed because of" errorText;
         NotifierShow (i18n_t "Couldn’t upload image. Please try another.") "error";
         UiHidePreloader ])%list.
Proof.
  unfold uploadingFailed, emit. cbn [_data isDataInit trace].
  by rewrite <- !app_assoc.
Qed.

(** C5.  An upload outcome on the failure path, that is a response whose
    [success] flag and [file] are not both set, or an error of the uploader,
    leaves the block data as it was, [data.file] included; it shows exactly
    one error notification and hides the preloader.  Both callbacks are
    total: the block is in a regular state afterwards. *)
Theorem upload_failure_keeps_data (this : ImageTool) (response : gmap string value) :
  truthy (prop response "success") && truthy (prop response "file") = false →
  let this' := onUpload i18n_t JSON_stringify response this in
  _data this' = _data this ∧
  prop (save this') "file" = prop (save this) "file" ∧
  (∃ errorText,
     trace this' =
       (trace this ++
          [ ConsoleLog "Image Tool: uploading failed because of" errorText;
            NotifierShow (i18n_t "Couldn’t upload image. Please try another.") "error";
            UiHidePreloader ])%list) ∧
  error_notifications (trace this') = S (error_notifications (trace this)) ∧
  last (trace this') = Some UiHidePreloader ∧
  (∀ errorText,
     _data (uploadingFailed i18n_t errorText this) = _data this ∧
     error_notifications (trace (uploadingFailed i18n_t errorText this))
       = S (error_notifications (trace this))).
Proof.
  intros Hroute this'. subst this'.
  unfold onUpload. rewrite Hroute.
  set (errorText := "incorrect response: " +:+ JSON_stringify response).
  destruct (uploadingFailed_frame errorText this) as (Hd & _ & Ht).
  split; [done|]. split; [unfold save, get_data; by rewrite Hd|].
  split; [by exists errorText|].
  split; [rewrite Ht, error_notifications_app; cbn; lia|].
  split; [rewrite Ht; by rewrite last_app|].
  intros e. destruct (uploadingFailed_frame e this) as (Hd' & _ & Ht').
  split; [done|]. rewrite Ht', error_notifications_app. cbn. lia.
Qed.

(** C6.  A response with [success] set and a file reference whose [url] is
    [http://x/y.png] sets [data.file] to that reference, so [data.file.url]
    to that value, and leaves [withBorder] and [size] as they were. *)
Theorem upload_success_frame (this : ImageTool) (response : gmap string value)
    (f : FileRef) :
  prop response "success" = VBool true →
  prop response "file" = VFile f →
  url f = "http://x/y.png" →
  let this' := onUpload i18n_t JSON_stringify response this in
  prop (_data this') "file" = VFile f ∧
  get_url (prop (_data this') "file") = VString "http://x/y.png" ∧
  prop (_data this') "withBorder" = prop (_data this) "withBorder" ∧
  prop (_data this') "size" = prop (_data this) "size".
Proof.
  intros Hs Hf Hu this'. subst this'.
  unfold onUpload. rewrite Hs, Hf. cbn [truthy andb].
  rewrite set_image_file, !set_image_prop_other by done.
  cbn [truthy get_url]. by rewrite Hu.
Qed.

(** C8.  A response with [success] set and a file reference whose [url] is
    the empty string takes the success path: [data.file] becomes that
    reference, whatever image the block had, no call is made on the
    collaborators, so no error is notified, and [validate] is [false] on the
    data saved afterwards. *)
Theorem upload_success_empty_url (this : ImageTool) (response : gmap string value)
    (f : FileRef) :
  prop response "success" = VBool true →
  prop response "file" = VFile f →
  url f = "" →
  let this' := onUpload i18n_t JSON_stringify response this in
  this' = set_image (VFile f) this ∧
  prop (_data this') "file" = VFile f ∧
  trace this' = trace this ∧
  error_notifications (trace this') = error_notifications (trace this) ∧
  validate (save this') = Some false.
Proof.
  intros Hs Hf Hu this'. subst this'.
  unfold onUpload. rewrite Hs, Hf. cbn [truthy andb].
  assert (Hfile : prop (_data (set_image (VFile f) this)) "file" = VFile f)
    by (by rewrite set_image_file).
  assert (Htrace : trace (set_image (VFile f) this) = trace this).
  { unfold set_image. cbn [truthy get_url andb]. by rewrite Hu. }
  split; [done|]. split; [done|]. split; [done|].
  split; [by rewrite Htrace|].
  unfold save, get_data. rewrite (validate_file _ _ Hfile).
  by rewrite bool_decide_eq_false_2 by auto.
Qed.

End Upload.

Lemma upload_failure_keeps_data_witness :
  _data (onUpload id (fun _ => "{}") failed_response cat_block) = _data cat_block.
Proof.
  pose proof (upload_failure_keeps_data id (fun _ => "{}") cat_block failed_response)
    as H.
  cbv zeta in H. destruct H as [Hd _]; [reflexivity|]. exact Hd.
Defined.

Lemma upload_success_frame_witness :
  prop (_data (onUpload id (fun _ => "{}") png_response cat_block)) "size"
  = VString "50".
Proof.
  pose proof (upload_success_frame id (fun _ => "{}") cat_block png_response
                (mkFileRef "http://x/y.png" [])) as H.
  cbv zeta in H.
  destruct H as (_ & _ & _ & Hs); [reflexivity | reflexivity | reflexivity |].
  rewrite Hs. reflexivity.
Defined.

Lemma upload_success_empty_url_witness :
  validate (save (onUpload id (fun _ => "{}") empty_url_response cat_block))
  = Some false.
Proof.
  pose proof (upload_success_empty_url id (fun _ => "{}") cat_block
                empty_url_response (mkFileRef "" [])) as H.
  cbv zeta in H.
  destruct H as (_ & _ & _ & _ & Hv); [reflexivity | reflexivity | reflexivity |].
  exact Hv.
Defined.

(** ** The size group *)

Example size_tunes_built_in :
  size_tunes = List.filter (fun n => startsWith n "size") (List.map name tunes).
Proof. reflexivity. Qed.

Lemma active_size_tunes_le_1 (this : ImageTool) :
  (length (active_size_tunes this) ≤ 1)%nat.
Proof.
  unfold active_size_tunes, size_tunes, isTuneActive, get_data.
  cbn [List.filter].
  change (startsWith "size30" "size") with true.
  change (startsWith "size50" "size") with true.
  change (startsWith "size70" "size") with true.
  change (startsWith "size100" "size") with true.
  cbn [negb].
  destruct (decide (prop (_data this) "size" = VUndefined)) as [|Hne];
    [cbn; lia|].
  set (s := "size" +:+ to_js_string (prop (_data this) "size")).
  cbn [truthy].
  destruct (String.eqb_spec s "size30") as [H30|];
    destruct (String.eqb_spec s "size50") as [H50|];
    destruct (String.eqb_spec s "size70") as [H70|];
    destruct (String.eqb_spec s "size100") as [H100|];
    cbn [length]; try lia; congruence.
Qed.

(** C2.  After any sequence of [setTune] calls, from any state of the block,
    at most one of [size30], [size50], [size70] and [size100] is active;
    setting a size tune leaves the activity of [withBorder] as it is, and
    setting [withBorder] leaves the activity of every size tune as it is. *)
Theorem size_tunes_mutually_exclusive (this : ImageTool)
    (calls : list (string * value)) :
  let this' := fold_left (fun st c => setTune (fst c) (snd c) st) calls this in
  (length (active_size_tunes this') ≤ 1)%nat ∧
  (∀ (tuneName : string) (status : value),
     startsWith tuneName "size" = true →
     isTuneActive (setTune tuneName status this') "withBorder"
     = isTuneActive this' "withBorder") ∧
  (∀ (tuneName : string) (status : value),
     startsWith tuneName "size" = true →
     isTuneActive (setTune "withBorder" status this') tuneName
     = isTuneActive this' tuneName).
Proof.
  intros this'. split; [apply active_size_tunes_le_1|]. split.
  - intros tuneName status Hp.
    rewrite !isTuneActive_field by reflexivity.
    apply setTune_prop_other. rewrite Hp. done.
  - intros tuneName status Hp.
    unfold isTuneActive, get_data. rewrite Hp. cbn [negb].
    by rewrite !(setTune_prop_other "withBorder" status this' "size").
Qed.

Lemma size_tunes_mutually_exclusive_witness :
  let b := fold_left (fun st c => setTune (fst c) (snd c) st)
             [("size50", VBool true); ("size30", VBool true)] (constructor ∅) in
  isTuneActive (setTune "size70" (VBool true) b) "withBorder"
  = isTuneActive b "withBorder" ∧
  isTuneActive (setTune "withBorder" (VBool true) b) "size30"
  = isTuneActive b "size30".
Proof.
  intros b.
  pose proof (size_tunes_mutually_exclusive (constructor ∅)
                [("size50", VBool true); ("size30", VBool true)]) as H.
  cbv zeta in H. destruct H as (_ & Hb & Hs).
  split.
  - apply Hb. reflexivity.
  - apply Hs. reflexivity.
Defined.

(** ** Setting a tune *)

Section DeactivateOthers.

Variable tuneName : string.

Lemma deactivate_other_trace_mono (this : ImageTool) (item : ActionConfig)
    (e : effect) :
  e ∈ trace this → e ∈ trace (deactivate_other tuneName this item).
Proof.
  intros He. unfold deactivate_other. case_match; [|done].
  cbn [trace emit]. rewrite !elem_of_app. auto.
Qed.

Lemma deactivate_others_trace_mono (l : list ActionConfig) (this : ImageTool)
    (e : effect) :
  e ∈ trace this → e ∈ trace (fold_left (deactivate_other tuneName) l this).
Proof.
  revert this. induction l as [|item l IH]; intros this He; [done|].
  cbn [fold_left]. by apply IH, deactivate_other_trace_mono.
Qed.

(** The loop of [setTune] un-marks every other size tune that is active. *)
Lemma deactivate_others_trace (l : list ActionConfig) (this : ImageTool)
    (item : ActionConfig) :
  item ∈ l →
  startsWith (name item) "size" = true →
  name item ≠ tuneName →
  truthy (isTuneActive this (name item)) = true →
  DomRemoveActiveMarker (name item)
    ∈ trace (fold_left (deactivate_other tuneName) l this) ∧
  UiApplyTune (name item) (VBool false)
    ∈ trace (fold_left (deactivate_other tuneName) l this).
Proof.
  intros Hin Hp Hne Hact. revert this Hact.
  induction l as [|item' l IH]; intros this Hact; [by apply elem_of_nil in Hin|].
  cbn [fold_left]. apply elem_of_cons in Hin as [<-|Hin].
  - split; apply deactivate_others_trace_mono;
      unfold deactivate_other; rewrite Hp, Hact;
      (destruct (String.eqb_spec (name item) tuneName) as [|_]; [done|]);
      cbn [negb andb trace emit]; rewrite !elem_of_app, !list_elem_of_singleton;
      auto.
  - apply IH; [done|].
    by rewrite (isTuneActive_data _ this) by apply deactivate_other_data.
Qed.

End DeactivateOthers.

(** The name [__proto__] is not a field: on a block whose flag is set,
    [setTune("__proto__", b)] stores nothing, and the name still reads as
    the prototype of the data. *)
Lemma setTune_proto_stores_nothing :
  isDataInit (constructor ∅) = true ∧
  startsWith "__proto__" "size" = false ∧
  prop (_data (setTune "__proto__" (VBool true) (constructor ∅))) "__proto__"
    = VInherited "__proto__" ∧
  prop (_data (setTune "__proto__" (VBool true) (constructor ∅))) "__proto__"
    ≠ VBool true ∧
  prop (_data (setTune "__proto__" (VBool false) (constructor ∅))) "__proto__"
    ≠ VBool false.
Proof. repeat split; try reflexivity; discriminate. Qed.

(** C3, as the code has it.  Once the flag [isDataInit] is set,
    [setTune(tuneName, value)]
    - for a size tune and [true], stores in [data.size] the suffix of the
      name after [size], leaves every other size tune inactive, and has
      un-marked each built-in size tune that was active before;
    - for a size tune and [false], unsets [data.size];
    - for any other name but [__proto__], sets the field of that name to
      the value;
    - for the name [__proto__], of which the data has no own property,
      leaves the data as it is. *)
Theorem setTune_postconditions (this : ImageTool) (tuneName : string) (b : bool) :
  isDataInit this = true →
  let this' := setTune tuneName (VBool b) this in
  (startsWith tuneName "size" = true → b = true →
     (∃ s, tuneName = "size" +:+ s ∧ prop (_data this') "size" = VString s) ∧
     (∀ other, startsWith other "size" = true → other ≠ tuneName →
        isTuneActive this' other = VBool false) ∧
     (∀ item, item ∈ tunes →
        startsWith (name item) "size" = true → name item ≠ tuneName →
        isTuneActive this (name item) = VBool true →
        DomRemoveActiveMarker (name item) ∈ trace this' ∧
        UiApplyTune (name item) (VBool false) ∈ trace this')) ∧
  (startsWith tuneName "size" = true → b = false →
     prop (_data this') "size" = VUndefined) ∧
  (startsWith tuneName "size" = false → tuneName ≠ "__proto__" →
     prop (_data this') tuneName = VBool b) ∧
  (tuneName = "__proto__" → _data this !! "__proto__" = None →
     _data this' = _data this).
Proof.
  intros Hi this'. subst this'. unfold setTune. rewrite Hi. cbn [negb truthy].
  split; [|split; [|split]].
  - intros Hp ->. rewrite Hp.
    set (that := fold_left (deactivate_other tuneName) tunes this).
    assert (Hs : prop (_data (emit (UiApplyTune tuneName (VBool true))
                                (set_prop "size"
                                   (VString (replace tuneName "size" "")) that)))
                   "size" = VString (replace tuneName "size" ""))
      by (cbn [_data emit set_prop]; apply prop_insert_eq).
    split; [|split].
    + exists (replace tuneName "size" ""). split; [by apply size_name_split|done].
    + intros other Hpo Hne. rewrite (isTuneActive_set _ _ _ Hpo Hs).
      f_equal. apply bool_decide_eq_false_2. intros Heq. apply Hne.
      rewrite (size_name_split _ Hp), (size_name_split _ Hpo). by rewrite Heq.
    + intros item Hin Hpi Hne Hact.
      destruct (deactivate_others_trace tuneName tunes this item) as [Hm Hu];
        [done | done | done | by rewrite Hact |].
      fold that in Hm, Hu.
      cbn [trace emit set_prop]. rewrite !elem_of_app. auto.
  - intros Hp ->. rewrite Hp. cbn [_data emit set_prop]. by apply prop_assign_eq.
  - intros Hp Hk. rewrite Hp. cbn [_data emit set_prop]. by apply prop_assign_eq.
  - intros -> Hown. change (startsWith "__proto__" "size") with false.
    cbn [_data emit set_prop]. unfold assign.
    by rewrite String.eqb_refl, Hown.
Qed.

Lemma setTune_postconditions_witness :
  let b := setTune "size30" (VBool true) cat_block in
  prop (_data b) "size" = VString "30" ∧
  isTuneActive b "size50" = VBool false ∧
  UiApplyTune "size50" (VBool false) ∈ trace b ∧
  prop (_data (setTune "size50" (VBool false) cat_block)) "size" = VUndefined ∧
  prop (_data (setTune "withBorder" (VBool true) cat_block)) "withBorder" = VBool true ∧
  _data (setTune "__proto__" (VBool true) cat_block) = _data cat_block.
Proof.
  intros b. subst b.
  pose proof (setTune_postconditions cat_block "size30" true) as H30.
  pose proof (setTune_postconditions cat_block "size50" false) as H50.
  pose proof (setTune_postconditions cat_block "withBorder" true) as Hwb.
  pose proof (setTune_postconditions cat_block "__proto__" true) as Hproto.
  cbv zeta in H30, H50, Hwb, Hproto.
  destruct H30 as ((Hs & Ho & Ht) & _ & _);
    [reflexivity | reflexivity | reflexivity |].
  destruct H50 as (_ & Hu & _); [reflexivity|].
  destruct Hwb as (_ & _ & Hf & _); [reflexivity|].
  destruct Hproto as (_ & _ & _ & Hnone); [reflexivity|].
  split; [|split; [|split; [|split; [|split]]]];
    [| | | | | apply Hnone; reflexivity].
  - destruct Hs as (s & Hn & Hs). rewrite Hs. f_equal.
    apply (append_inj_l "size"). symmetry. exact Hn.
  - apply Ho; [reflexivity | discriminate].
  - apply (Ht (mkActionConfig "size50" "Resize to 50%" true));
      [ apply list_elem_of_In; simpl; auto
      | reflexivity | discriminate | reflexivity ].
  - apply Hu; reflexivity.
  - apply Hf; [reflexivity | discriminate].
Defined.

(** ** Saving what was restored *)

(** The caption of the saved data is not read by [set data]: the block that
    is built from a captioned image saves an empty caption. *)
Lemma round_trip_loses_caption :
  validate (ImageToolData.to_object captioned_data) = Some true ∧
  prop (save (constructor (ImageToolData.to_object captioned_data))) "caption"
    = VString "" ∧
  ¬ ImageToolData.fields_equal
      (save (constructor (ImageToolData.to_object captioned_data)))
      captioned_data.
Proof.
  split; [reflexivity|]. split; [reflexivity|].
  intros (_ & Hc & _). vm_compute in Hc. discriminate Hc.
Qed.

(** Nor is [withBorder] read from the saved data: the loop of [set data]
    asks [isTuneActive], which reads the block's own, default, field. *)
Example border_not_restored :
  prop (save (constructor (ImageToolData.to_object cat_data))) "withBorder"
  = VBool false.
Proof. reflexivity. Qed.

(** C1, as the code has it.  For a block data that [validate] accepts, the
    block built from it saves the same [file] and the same [size], and an
    empty [caption]; what it saves equals the block data in all four fields
    when the caption of the block data is empty and its [withBorder] is
    [false]. *)
Theorem constructor_save_round_trip (d : ImageToolData.t) :
  validate (ImageToolData.to_object d) = Some true →
  let saved := save (constructor (ImageToolData.to_object d)) in
  prop saved "file" = VFile (ImageToolData.file d) ∧
  prop saved "size" = ImageToolData.size_value (ImageToolData.size d) ∧
  prop saved "caption" = VString "" ∧
  (ImageToolData.caption d = "" → ImageToolData.withBorder d = false →
   ImageToolData.fields_equal saved d).
Proof.
  intros _ saved. subst saved. unfold save, get_data.
  assert (Hfile : prop (_data (constructor (ImageToolData.to_object d))) "file"
                  = VFile (ImageToolData.file d))
    by (rewrite constructor_prop; reflexivity).
  assert (Hsize : prop (_data (constructor (ImageToolData.to_object d))) "size"
                  = ImageToolData.size_value (ImageToolData.size d))
    by (rewrite constructor_prop; reflexivity).
  assert (Hcap : prop (_data (constructor (ImageToolData.to_object d))) "caption"
                 = VString "")
    by (rewrite constructor_prop; reflexivity).
  split; [done|]. split; [done|]. split; [done|].
  intros Hc Hb. unfold ImageToolData.fields_equal. rewrite Hc, Hb.
  split; [done|]. split; [done|]. split; [|done].
  rewrite constructor_prop. reflexivity.
Qed.

Lemma constructor_save_round_trip_witness :
  ImageToolData.fields_equal
    (save (constructor (ImageToolData.to_object plain_data))) plain_data.
Proof.
  pose proof (constructor_save_round_trip plain_data) as H. cbv zeta in H.
  destruct H as (_ & _ & _ & Heq); [reflexivity|].
  apply Heq; reflexivity.
Defined.

(** ** The caption *)

(** [setTune] writes the field that its tune names, [caption] included. *)
Lemma caption_written_by_setTune :
  prop (save (constructor (ImageToolData.to_object cat_data))) "caption"
    = VString "" ∧
  prop (save (setTune "caption" (VBool true)
                (constructor (ImageToolData.to_object cat_data)))) "caption"
    = VBool true ∧
  prop (save (setTune "caption" (VBool true)
                (constructor (ImageToolData.to_object cat_data)))) "caption"
    ≠ VString "".
Proof. split; [reflexivity|]. split; [reflexivity|]. discriminate. Qed.

Section Caption.

Variable i18n_t : string -> string.
Variable JSON_stringify : gmap string value -> string.

Lemma run_call_caption (this : ImageTool) (c : call) :
  names_caption c = false →
  prop (_data (run_call i18n_t JSON_stringify this c)) "caption"
  = prop (_data this) "caption".
Proof.
  assert (Hset : ∀ tuneName v, String.eqb tuneName "caption" = false →
            prop (_data (setTune tuneName v this)) "caption"
            = prop (_data this) "caption").
  { intros tuneName v Hn. apply setTune_prop_other.
    destruct (startsWith tuneName "size"); [done|].
    intros <-. by rewrite String.eqb_refl in Hn. }
  destruct c as [tuneName v|tuneName|response|errorText|src];
    cbn [names_caption run_call]; intros Hn.
  - by apply Hset.
  - unfold tuneToggled. by apply Hset.
  - unfold onUpload. case_match.
    + by apply set_image_prop_other.
    + reflexivity.
  - reflexivity.
  - reflexivity.
Qed.

Lemma run_calls_caption (calls : list call) (this : ImageTool) :
  Forall (fun c => names_caption c = false) calls →
  prop (_data (run_calls i18n_t JSON_stringify calls this)) "caption"
  = prop (_data this) "caption".
Proof.
  unfold run_calls. intros Hall. revert this.
  induction Hall as [|c calls Hc _ IH]; intros this; [done|].
  cbn [fold_left]. by rewrite IH, run_call_caption.
Qed.

(** C10, as the code has it.  Whatever the saved data, its caption
    included, the caption of the block data is the empty string after the
    construction, and it is still the empty string in what [save] returns
    after any sequence of calls none of which sets or toggles a tune named
    [caption]. *)
Theorem caption_stays_empty (data : gmap string value) (calls : list call) :
  Forall (fun c => names_caption c = false) calls →
  prop (_data (constructor data)) "caption" = VString "" ∧
  prop (save (run_calls i18n_t JSON_stringify calls (constructor data))) "caption"
  = VString "".
Proof.
  intros Hall.
  assert (Hc : prop (_data (constructor data)) "caption" = VString "")
    by (rewrite constructor_prop; reflexivity).
  split; [done|]. unfold save, get_data. by rewrite run_calls_caption.
Qed.

End Caption.

Lemma caption_stays_empty_witness :
  prop (save (run_calls id (fun _ => "{}")
                [ SetTune "size50" (VBool true); TuneToggled "withBorder";
                  OnUpload png_response; OnUpload failed_response;
                  UploadingFailed "timeout"; UploadUrl "https://ex.com/a.png" ]
                (constructor (ImageToolData.to_object cat_data)))) "caption"
  = VString "".
Proof.
  apply (caption_stays_empty id (fun _ => "{}")).
  repeat constructor.
Defined.

(** ** More on the tunes *)

Section TuneUpdates.

Implicit Types (this : ImageTool) (tuneName : string) (v : value).

Lemma setTune_data_size_on tuneName v this :
  isDataInit this = true → startsWith tuneName "size" = true → truthy v = true →
  _data (setTune tuneName v this)
  = <["size" := VString (replace tuneName "size" "")]> (_data this).
Proof.
  intros Hi Hp Hv. unfold setTune. rewrite Hp, Hi, Hv. cbn [negb _data emit set_prop].
  by rewrite assign_ne, deactivate_others_data.
Qed.

Lemma setTune_data_size_off tuneName v this :
  isDataInit this = true → startsWith tuneName "size" = true → truthy v = false →
  _data (setTune tuneName v this) = <["size" := VUndefined]> (_data this).
Proof.
  intros Hi Hp Hv. unfold setTune. rewrite Hp, Hi, Hv. cbn [negb _data emit set_prop].
  by rewrite assign_ne.
Qed.

Lemma setTune_data_assign tuneName v this :
  startsWith tuneName "size" = false →
  _data (setTune tuneName v this) = assign tuneName v (_data this).
Proof. intros Hp. unfold setTune. by rewrite Hp. Qed.

Lemma setTune_data_field tuneName v this :
  startsWith tuneName "size" = false → tuneName ≠ "__proto__" →
  _data (setTune tuneName v this) = <[tuneName := v]> (_data this).
Proof. intros Hp Hk. by rewrite setTune_data_assign, assign_ne. Qed.

Lemma setTune_trace_plain tuneName v this :
  startsWith tuneName "size" && isDataInit this && truthy v = false →
  trace (setTune tuneName v this) = (trace this ++ [UiApplyTune tuneName v])%list.
Proof.
  intros Hc. unfold setTune.
  destruct (startsWith tuneName "size"); [|done].
  destruct (isDataInit this); [|done].
  destruct (truthy v); done.
Qed.

(** What [setTune] has written is what [isTuneActive] reads, for every name
    but [__proto__], under which nothing is written. *)
Lemma setTune_read_back tuneName (b : bool) this :
  isDataInit this = true → tuneName ≠ "__proto__" →
  isTuneActive (setTune tuneName (VBool b) this) tuneName = VBool b.
Proof.
  intros Hi Hk. destruct (startsWith tuneName "size") eqn:Hp.
  - destruct b.
    + rewrite (isTuneActive_set _ _ (replace tuneName "size" "") Hp).
      * by rewrite bool_decide_eq_true_2.
      * rewrite setTune_data_size_on by done. apply prop_insert_eq.
    + apply isTuneActive_unset; [done|].
      rewrite setTune_data_size_off by done. apply prop_insert_eq.
  - rewrite isTuneActive_field by done.
    rewrite setTune_data_field by done. apply prop_insert_eq.
Qed.

Lemma tuneToggled_read_back tuneName this :
  isDataInit this = true → tuneName ≠ "__proto__" →
  isTuneActive (tuneToggled tuneName this) tuneName
  = VBool (negb (truthy (isTuneActive this tuneName))).
Proof. intros Hi Hk. unfold tuneToggled. by apply setTune_read_back. Qed.

(** A name of the size group or of a built-in tune is not [__proto__]. *)
Lemma size_name_not_proto tuneName :
  startsWith tuneName "size" = true → tuneName ≠ "__proto__".
Proof. by intros Hp ->. Qed.

Lemma tuneToggled_init tuneName this :
  isDataInit (tuneToggled tuneName this) = isDataInit this.
Proof. apply setTune_init. Qed.

End TuneUpdates.

(** X1.  Once the flag [isDataInit] is set, a tune that [setTune] has set to
    a boolean is read back by [isTuneActive] as that boolean, for every name
    of a tune but [__proto__]: also for a name such as [toString], which
    reads as an inherited function before it is set. *)
Theorem setTune_then_isTuneActive (this : ImageTool) (tuneName : string) (b : bool) :
  isDataInit this = true →
  tuneName ≠ "__proto__" →
  isTuneActive (setTune tuneName (VBool b) this) tuneName = VBool b.
Proof. apply setTune_read_back. Qed.

Lemma setTune_then_isTuneActive_witness :
  isTuneActive (setTune "size100" (VBool true) cat_block) "size100" = VBool true ∧
  isTuneActive cat_block "toString" = VInherited "toString" ∧
  isTuneActive (setTune "toString" (VBool false) cat_block) "toString" = VBool false.
Proof.
  split; [|split].
  - apply setTune_then_isTuneActive; [reflexivity | discriminate].
  - reflexivity.
  - apply setTune_then_isTuneActive; [reflexivity | discriminate].
Defined.

(** X2.  Once the flag is set, [tuneToggled] inverts the activity of its
    tune, for every name of a tune but [__proto__], and toggling twice
    brings the activity back; but toggling twice a size tune that was not
    active leaves [data.size] unset, whatever size the block had before. *)
Theorem tuneToggled_twice (this : ImageTool) (tuneName : string) :
  isDataInit this = true →
  tuneName ≠ "__proto__" →
  isTuneActive (tuneToggled tuneName this) tuneName
    = VBool (negb (truthy (isTuneActive this tuneName))) ∧
  isTuneActive (tuneToggled tuneName (tuneToggled tuneName this)) tuneName
    = VBool (truthy (isTuneActive this tuneName)) ∧
  (startsWith tuneName "size" = true →
   truthy (isTuneActive this tuneName) = false →
   prop (_data (tuneToggled tuneName (tuneToggled tuneName this))) "size"
   = VUndefined).
Proof.
  intros Hi Hk.
  assert (Hi' : isDataInit (tuneToggled tuneName this) = true)
    by (by rewrite tuneToggled_init).
  split; [by apply tuneToggled_read_back|]. split.
  - rewrite tuneToggled_read_back by done.
    rewrite tuneToggled_read_back by done. cbn [truthy]. by rewrite negb_involutive.
  - intros Hp Hact. unfold tuneToggled at 1.
    rewrite tuneToggled_read_back by done. rewrite Hact. cbn [truthy negb].
    rewrite setTune_data_size_off by done. apply prop_insert_eq.
Qed.

Lemma tuneToggled_twice_witness :
  isTuneActive cat_block "size50" = VBool true ∧
  isTuneActive (tuneToggled "size30" (tuneToggled "size30" cat_block)) "size50"
  = VBool false ∧
  prop (_data (tuneToggled "size30" (tuneToggled "size30" cat_block))) "size"
  = VUndefined ∧
  isTuneActive (tuneToggled "toString" cat_block) "toString" = VBool false.
Proof.
  destruct (tuneToggled_twice cat_block "size30") as (_ & _ & Hs);
    [reflexivity | discriminate |].
  destruct (tuneToggled_twice cat_block "toString") as (Hflip & _);
    [reflexivity | discriminate |].
  split; [reflexivity|]. split; [reflexivity|]. split.
  - apply Hs; reflexivity.
  - rewrite Hflip. reflexivity.
Defined.

(** X3.  Once the flag is set, switching a size tune off with [setTune]
    unsets [data.size] whichever size tune is named: every size tune is
    inactive afterwards, also one that was active under another name, and
    the rendering surface is told about the named tune only. *)
Theorem setTune_size_off_clears_group (this : ImageTool) (tuneName : string)
    (v : value) :
  isDataInit this = true →
  startsWith tuneName "size" = true →
  truthy v = false →
  (∀ other, startsWith other "size" = true →
     isTuneActive (setTune tuneName v this) other = VBool false) ∧
  trace (setTune tuneName v this) = (trace this ++ [UiApplyTune tuneName v])%list.
Proof.
  intros Hi Hp Hv. split.
  - intros other Ho. apply isTuneActive_unset; [done|].
    rewrite setTune_data_size_off by done. apply prop_insert_eq.
  - apply setTune_trace_plain. rewrite Hv. apply andb_false_r.
Qed.

Lemma setTune_size_off_clears_group_witness :
  isTuneActive cat_block "size50" = VBool true ∧
  isTuneActive (setTune "size30" (VBool false) cat_block) "size50" = VBool false ∧
  ui_status (trace (setTune "size30" (VBool false) cat_block)) "size50"
  = Some (VBool true).
Proof.
  destruct (setTune_size_off_clears_group cat_block "size30" (VBool false))
    as [Hoff Htr]; [reflexivity | reflexivity | reflexivity |].
  split; [reflexivity|]. split.
  - apply Hoff. reflexivity.
  - rewrite Htr. reflexivity.
Defined.

(** ** The calls of [setTune] on the rendering surface *)

Lemma deactivate_others_trace_eq (tuneName : string) (l : list ActionConfig)
    (this : ImageTool) :
  trace (fold_left (deactivate_other tuneName) l this)
  = (trace this
     ++ flat_map unmark (others_to_unmark tuneName this (List.map name l)))%list.
Proof.
  revert this. induction l as [|item l IH]; intros this.
  - cbn. by rewrite app_nil_r.
  - cbn [fold_left List.map others_to_unmark List.filter]. rewrite IH.
    assert (Hsame : others_to_unmark tuneName (deactivate_other tuneName this item)
                      (List.map name l)
                    = others_to_unmark tuneName this (List.map name l)).
    { unfold others_to_unmark. apply List.filter_ext. intros m.
      by rewrite (isTuneActive_data _ this) by apply deactivate_other_data. }
    rewrite Hsame. unfold deactivate_other.
    fold (others_to_unmark tuneName this (List.map name l)).
    destruct (startsWith (name item) "size" && negb (name item =? tuneName)
              && truthy (isTuneActive this (name item))).
    + cbn [trace emit flat_map unmark]. by rewrite <- !app_assoc.
    + done.
Qed.

Lemma others_to_unmark_tunes (tuneName : string) (this : ImageTool) :
  others_to_unmark tuneName this (List.map name tunes)
  = List.filter
      (fun m => negb (String.eqb m tuneName) && truthy (isTuneActive this m))
      size_tunes.
Proof. reflexivity. Qed.

Lemma filter_and_length {A} (p q : A → bool) (l : list A) :
  (length (List.filter (fun x => p x && q x) l) ≤ length (List.filter q l))%nat.
Proof.
  induction l as [|x l IH]; cbn [List.filter]; [done|].
  destruct (p x), (q x); cbn [andb length]; lia.
Qed.

(** X4.  Once the flag is set, switching a size tune on makes, in this
    order: for each other built-in size tune that is active, the removal of
    its marker and [applyTune(other, false)]; then [applyTune] for the tune
    itself.  At most one other tune is un-marked, so the tune adds one call
    or three. *)
Theorem setTune_size_on_trace (this : ImageTool) (tuneName : string) (v : value) :
  isDataInit this = true →
  startsWith tuneName "size" = true →
  truthy v = true →
  let others :=
    List.filter
      (fun m => negb (String.eqb m tuneName) && truthy (isTuneActive this m))
      size_tunes in
  trace (setTune tuneName v this)
    = (trace this ++ flat_map unmark others ++ [UiApplyTune tuneName v])%list ∧
  (length others ≤ 1)%nat.
Proof.
  intros Hi Hp Hv others. split.
  - unfold setTune. rewrite Hp, Hi, Hv. cbn [negb trace emit set_prop].
    rewrite deactivate_others_trace_eq, others_to_unmark_tunes.
    by rewrite <- app_assoc.
  - etrans; [apply filter_and_length|]. apply active_size_tunes_le_1.
Qed.

Lemma setTune_size_on_trace_witness :
  trace (setTune "size30" (VBool true) cat_block)
  = (trace cat_block
     ++ [ DomRemoveActiveMarker "size50"; UiApplyTune "size50" (VBool false);
          UiApplyTune "size30" (VBool true) ])%list.
Proof.
  pose proof (setTune_size_on_trace cat_block "size30" (VBool true)) as H.
  cbv zeta in H. destruct H as [Ht _]; [reflexivity | reflexivity | reflexivity |].
  rewrite Ht. reflexivity.
Defined.

(** ** More on the construction *)

Lemma set_image_trace (file : value) (this : ImageTool) :
  trace (set_image file this) = (trace this ++ shown file)%list.
Proof.
  unfold set_image, shown. destruct file as [|b|s|f|member]; cbn [truthy get_url].
  - cbn. by rewrite app_nil_r.
  - rewrite andb_false_r. cbn. by rewrite app_nil_r.
  - rewrite andb_false_r. cbn. by rewrite app_nil_r.
  - cbn [andb to_js_string]. destruct (String.eqb (url f) ""); cbn; [|done].
    by rewrite app_nil_r.
  - cbn. by rewrite app_nil_r.
Qed.

Lemma isTuneActive_props (this that : ImageTool) (name : string) :
  (∀ k, prop (_data this) k = prop (_data that) k) →
  isTuneActive this name = isTuneActive that name.
Proof. intros Hk. unfold isTuneActive, get_data. by rewrite !Hk. Qed.

Section RestoreLoop.

Implicit Types (this : ImageTool) (tune : ActionConfig).

Lemma restore_step_props this tune (k : string) :
  isDataInit this = false →
  prop (_data (setTune (name tune) (isTuneActive this (name tune)) this)) k
  = prop (_data this) k.
Proof.
  intros Hi. destruct (startsWith (name tune) "size") eqn:Hp.
  - by rewrite setTune_size_before_init.
  - rewrite setTune_data_assign, isTuneActive_field by done.
    apply prop_assign_self.
Qed.

Lemma restore_step_trace this tune :
  isDataInit this = false →
  trace (setTune (name tune) (isTuneActive this (name tune)) this)
  = (trace this ++ [UiApplyTune (name tune) (isTuneActive this (name tune))])%list.
Proof.
  intros Hi. apply setTune_trace_plain. rewrite Hi. by rewrite andb_false_r.
Qed.

Lemma restore_loop (l : list ActionConfig) this :
  isDataInit this = false →
  (∀ k,
     prop (_data (fold_left
                    (fun st tune =>
                       setTune (name tune) (isTuneActive st (name tune)) st)
                    l this)) k
     = prop (_data this) k) ∧
  trace (fold_left
           (fun st tune => setTune (name tune) (isTuneActive st (name tune)) st)
           l this)
  = (trace this
     ++ List.map (fun t => UiApplyTune (name t) (isTuneActive this (name t))) l)%list.
Proof.
  revert this. induction l as [|tune l IH]; intros this Hi.
  - cbn [fold_left List.map]. by rewrite app_nil_r.
  - cbn [fold_left List.map].
    destruct (IH (setTune (name tune) (isTuneActive this (name tune)) this))
      as [Hk Ht]; [by rewrite setTune_init|].
    split.
    + intros k. by rewrite Hk, restore_step_props.
    + rewrite Ht, restore_step_trace by done. rewrite <- app_assoc. cbn [app].
      do 2 f_equal. apply List.map_ext. intros t. f_equal.
      apply isTuneActive_props. intros k. by apply restore_step_props.
Qed.

End RestoreLoop.

Lemma restored_trace (l : list ActionConfig) (assigned : ImageTool) :
  isDataInit assigned = false →
  let restored :=
    fold_left (fun st tune => setTune (name tune) (isTuneActive st (name tune)) st)
      l assigned in
  trace (set_isDataInit true restored)
  = (trace assigned
     ++ List.map
          (fun t => UiApplyTune (name t)
                      (isTuneActive (set_isDataInit true restored) (name t)))
          l)%list.
Proof.
  intros Hi restored.
  destruct (restore_loop l assigned Hi) as [Hk Ht].
  fold restored in Hk, Ht. clearbody restored.
  assert (Htr : ∀ x, trace (set_isDataInit true x) = trace x) by reflexivity.
  rewrite Htr, Ht. f_equal.
  apply List.map_ext. intros t. f_equal.
  symmetry. apply isTuneActive_props. intros k. apply Hk.
Qed.

Lemma set_data_trace (data : gmap string value) (this : ImageTool) :
  isDataInit this = false →
  trace (set_data data this)
  = (trace this ++ shown (prop data "file")
     ++ List.map
          (fun t => UiApplyTune (name t) (isTuneActive (set_data data this) (name t)))
          tunes)%list.
Proof.
  intros Hi0. unfold set_data.
  rewrite restored_trace.
  - cbn [trace set_prop]. by rewrite set_image_trace, <- app_assoc.
  - cbn [isDataInit set_prop]. by rewrite set_image_init.
Qed.

(** X6.  Whatever the saved data, the calls of the construction on the
    rendering surface are: [fillImage], when the saved file is a reference
    with a non-empty [url]; then one [applyTune] per built-in tune, in their
    order, each with the activity that the tune has in the block that was
    built.  No marker is removed, and [withBorder] is always applied as
    [false]. *)
Theorem constructor_trace (data : gmap string value) :
  trace (constructor data)
  = (shown (prop data "file")
     ++ List.map
          (fun t => UiApplyTune (name t) (isTuneActive (constructor data) (name t)))
          tunes)%list ∧
  isTuneActive (constructor data) "withBorder" = VBool false.
Proof.
  split.
  - unfold constructor. rewrite set_data_trace by reflexivity. reflexivity.
  - rewrite isTuneActive_field by reflexivity. rewrite constructor_prop.
    by repeat case_decide.
Qed.

(** X5.  The block that is built from any saved data can be validated:
    [validate] on what it saves does not raise, it is [true] exactly when
    the saved file was a reference with a non-empty [url], and it agrees
    with [validate] on the saved data whenever that one does not raise. *)
Theorem constructor_validity (data : gmap string value) :
  validate (save (constructor data)) = Some (truthy (get_url (prop data "file"))) ∧
  (∀ b, validate data = Some b → validate (save (constructor data)) = Some b) ∧
  (validate data = None → validate (save (constructor data)) = Some false).
Proof.
  assert (Hv : validate (save (constructor data))
               = Some (truthy (get_url (prop data "file")))).
  { unfold validate at 1, save, get_data. rewrite constructor_prop.
    rewrite decide_False, decide_True by done.
    destruct (prop data "file") as [|[]|s|f|member]; try reflexivity.
    cbn [truthy]. destruct (negb (s =? "")); reflexivity. }
  split; [done|]. rewrite Hv. unfold validate.
  split.
  - intros b. destruct (prop data "file"); [discriminate|done..].
  - destruct (prop data "file"); [done|discriminate..].
Qed.

Lemma constructor_validity_witness :
  validate (save (constructor (ImageToolData.to_object cat_data))) = Some true ∧
  validate (save (constructor ∅)) = Some false.
Proof.
  destruct (constructor_validity (ImageToolData.to_object cat_data)) as (_ & Hb & _).
  destruct (constructor_validity ∅) as (_ & _ & Hn).
  split.
  - apply Hb. reflexivity.
  - apply Hn. reflexivity.
Defined.

(** ** Invariants of the block under its calls *)

Section Invariants.

Variable i18n_t : string -> string.
Variable JSON_stringify : gmap string value -> string.

(** A property that every call of a kind keeps holds after any sequence of
    calls of that kind. *)
Lemma run_calls_invariant (P : ImageTool → Prop) (Q : call → bool) :
  (∀ st c, P st → Q c = true → P (run_call i18n_t JSON_stringify st c)) →
  ∀ calls st, Forall (fun c => Q c = true) calls → P st →
    P (run_calls i18n_t JSON_stringify calls st).
Proof.
  intros Hstep calls st Hall. revert st. unfold run_calls.
  induction Hall as [|c calls Hc _ IH]; intros st HP; [done|].
  cbn [fold_left]. apply IH. by apply Hstep.
Qed.

Lemma onUpload_init (response : gmap string value) (this : ImageTool) :
  isDataInit (onUpload i18n_t JSON_stringify response this) = isDataInit this.
Proof. unfold onUpload. case_match; [apply set_image_init | reflexivity]. Qed.

Lemma run_call_init (this : ImageTool) (c : call) :
  isDataInit (run_call i18n_t JSON_stringify this c) = isDataInit this.
Proof.
  destruct c; cbn [run_call].
  - apply setTune_init.
  - apply tuneToggled_init.
  - apply onUpload_init.
  - reflexivity.
  - reflexivity.
Qed.



Lemma setTune_bool_file (tuneName : string) (b : bool) (this : ImageTool) :
  prop (_data this) "file" ≠ VUndefined →
  prop (_data (setTune tuneName (VBool b) this)) "file" ≠ VUndefined.
Proof.
  intros Hf. destruct (startsWith tuneName "size") eqn:Hp.
  - rewrite setTune_prop_other; [done|]. by rewrite Hp.
  - rewrite setTune_data_assign by done.
    destruct (decide (tuneName = "file")) as [->|Hne].
    + by rewrite prop_assign_eq.
    + by rewrite prop_assign_ne.
Qed.

Lemma run_call_file (this : ImageTool) (c : call) :
  prop (_data this) "file" ≠ VUndefined → boolean_status c = true →
  prop (_data (run_call i18n_t JSON_stringify this c)) "file" ≠ VUndefined.
Proof.
  intros Hf Hc. destruct c as [n v|n|response|errorText|src]; cbn [run_call].
  - destruct v; try discriminate Hc. by apply setTune_bool_file.
  - by apply setTune_bool_file.
  - unfold onUpload.
    destruct (truthy (prop response "success") && truthy (prop response "file"))
      eqn:Hr; [|done].
    apply andb_prop in Hr as [_ Hr]. rewrite set_image_file, Hr.
    intros Hu. by rewrite Hu in Hr.
  - done.
  - done.
Qed.

(** X8.  After the construction from any saved data and any sequence of
    calls in which [setTune] is given booleans, the block data has a [file]
    and [validate] on what [save] returns does not raise.  The condition
    matters: [setTune("file", undefined)] makes [validate] raise. *)
Theorem validate_never_raises (data : gmap string value) (calls : list call) :
  Forall (fun c => boolean_status c = true) calls →
  (∃ b, validate (save (run_calls i18n_t JSON_stringify calls (constructor data)))
        = Some b) ∧
  (∀ this, validate (save (setTune "file" VUndefined this)) = None).
Proof.
  intros Hall. split.
  - assert (Hf : prop (_data (run_calls i18n_t JSON_stringify calls
                                (constructor data))) "file" ≠ VUndefined).
    { apply (run_calls_invariant
               (fun st => prop (_data st) "file" ≠ VUndefined) boolean_status);
        [apply run_call_file | done |].
      rewrite constructor_prop. rewrite decide_False, decide_True by done.
      destruct (truthy (prop data "file")) eqn:Ht; [|done].
      intros Hu. by rewrite Hu in Ht. }
    unfold validate, save, get_data.
    destruct (prop (_data _) "file"); [done|eauto..].
  - intros this. unfold validate, save, get_data.
    rewrite setTune_data_assign by reflexivity. by rewrite prop_assign_eq.
Qed.

End Invariants.


Lemma validate_never_raises_witness :
  ∃ b, validate (save (run_calls id (fun _ => "{}")
                         [ SetTune "file" (VBool true); OnUpload empty_url_response;
                           TuneToggled "size30" ]
                         (constructor ∅)))
       = Some b.
Proof.
  apply (validate_never_raises id (fun _ => "{}")).
  repeat constructor.
Defined.

(** ** The shape of what is saved *)

Lemma built_in_name_cases (n : string) :
  built_in_name n = true →
  n = "withBorder" ∨ n = "size30" ∨ n = "size50" ∨ n = "size70" ∨ n = "size100".
Proof.
  unfold built_in_name, tunes. cbn [List.map existsb name].
  rewrite !orb_true_iff, !String.eqb_eq. intuition discriminate.
Qed.

Section Shape.

Variable i18n_t : string -> string.
Variable JSON_stringify : gmap string value -> string.

Lemma persisted_shape_intro (this : ImageTool) (f : FileRef) (b : bool)
    (s : option ImageToolData.SizeOptions) :
  prop (_data this) "file" = VFile f →
  prop (_data this) "caption" = VString "" →
  prop (_data this) "withBorder" = VBool b →
  prop (_data this) "size" = ImageToolData.size_value s →
  persisted_shape this.
Proof.
  intros Hf Hc Hb Hs. exists (ImageToolData.mk "" b s f).
  split; [reflexivity|]. by repeat split.
Qed.

Lemma setTune_bool_shape (n : string) (b : bool) (this : ImageTool) :
  isDataInit this = true → built_in_name n = true →
  persisted_shape this → persisted_shape (setTune n (VBool b) this).
Proof.
  intros Hi Hn (d & Hcap & Hf & Hc & Hb & Hs). rewrite Hcap in Hc.
  unfold save, get_data in *.
  assert (Hsize : ∀ (m : string) (p : ImageToolData.SizeOptions),
            startsWith m "size" = true →
            replace m "size" "" = ImageToolData.size_string p →
            persisted_shape (setTune m (VBool b) this)).
  { intros m p Hp Hrep. destruct b.
    - apply (persisted_shape_intro _ (ImageToolData.file d)
               (ImageToolData.withBorder d) (Some p));
        rewrite setTune_data_size_on by done;
        rewrite ?prop_insert_eq, ?prop_insert_ne by done; try done.
      cbn [ImageToolData.size_value]. by rewrite Hrep.
    - apply (persisted_shape_intro _ (ImageToolData.file d)
               (ImageToolData.withBorder d) None);
        rewrite setTune_data_size_off by done;
        by rewrite ?prop_insert_eq, ?prop_insert_ne by done. }
  destruct (built_in_name_cases n Hn) as [->|[->|[->|[->| ->]]]].
  - apply (persisted_shape_intro _ (ImageToolData.file d) b (ImageToolData.size d));
      rewrite setTune_data_field by done;
      by rewrite ?prop_insert_eq, ?prop_insert_ne by done.
  - by apply (Hsize "size30" ImageToolData.Size30).
  - by apply (Hsize "size50" ImageToolData.Size50).
  - by apply (Hsize "size70" ImageToolData.Size70).
  - by apply (Hsize "size100" ImageToolData.Size100).
Qed.

Lemma run_call_shape (this : ImageTool) (c : call) :
  isDataInit this = true ∧ persisted_shape this → typed_call c = true →
  isDataInit (run_call i18n_t JSON_stringify this c) = true ∧
  persisted_shape (run_call i18n_t JSON_stringify this c).
Proof.
  intros [Hi Hshape] Hc. split; [by rewrite run_call_init|].
  destruct c as [n v|n|response|errorText|src]; cbn [run_call typed_call] in *.
  - destruct v; try discriminate Hc. by apply setTune_bool_shape.
  - by apply setTune_bool_shape.
  - unfold onUpload.
    destruct (truthy (prop response "success") && truthy (prop response "file"))
      eqn:Hr; [|done].
    apply andb_prop in Hr as [_ Hr].
    destruct (prop response "file") as [| | |f|]; try discriminate.
    destruct Hshape as (d & Hcap & _ & Hcp & Hb & Hs). rewrite Hcap in Hcp.
    unfold save, get_data in *.
    apply (persisted_shape_intro _ f (ImageToolData.withBorder d)
             (ImageToolData.size d));
      by rewrite ?set_image_file, ?set_image_prop_other by done.
  - done.
  - done.
Qed.

(** X9.  The block built from a well-typed block data keeps the persisted
    shape under every sequence of calls that stay within the types (built-in
    tune names, boolean statuses, responses whose [file] is a file reference
    or absent): [save] always returns a file reference, the empty caption, a
    boolean [withBorder] and a [size] that is unset or one of the strings
    30, 50, 70 and 100. *)
Theorem saved_data_keeps_shape (d0 : ImageToolData.t) (calls : list call) :
  Forall (fun c => typed_call c = true) calls →
  ∃ d : ImageToolData.t,
    ImageToolData.caption d = "" ∧
    ImageToolData.fields_equal
      (save (run_calls i18n_t JSON_stringify calls
               (constructor (ImageToolData.to_object d0))))
      d.
Proof.
  intros Hall.
  apply (run_calls_invariant i18n_t JSON_stringify
           (fun st => isDataInit st = true ∧ persisted_shape st) typed_call);
    [apply run_call_shape | done |].
  split; [reflexivity|].
  apply (persisted_shape_intro _ (ImageToolData.file d0) false
           (ImageToolData.size d0));
    rewrite constructor_prop; reflexivity.
Qed.

End Shape.

Lemma saved_data_keeps_shape_witness :
  ∃ d : ImageToolData.t,
    ImageToolData.caption d = "" ∧
    ImageToolData.fields_equal
      (save (run_calls id (fun _ => "{}")
               [ TuneToggled "size30"; SetTune "withBorder" (VBool true);
                 OnUpload png_response; OnUpload failed_response;
                 TuneToggled "size30" ]
               (constructor (ImageToolData.to_object cat_data))))
      d.
Proof.
  apply (saved_data_keeps_shape id (fun _ => "{}")).
  repeat constructor.
Defined.

(** ** Uploads and tunes together *)

Section UploadOrder.

Variable i18n_t : string -> string.
Variable JSON_stringify : gmap string value -> string.

Lemma set_image_data (file : value) (this : ImageTool) :
  _data (set_image file this)
  = <["file" := if truthy file then file else VFile (mkFileRef "" [])]> (_data this).
Proof. unfold set_image. by case_match. Qed.

Lemma onUpload_data (response : gmap string value) (this : ImageTool) :
  _data (onUpload i18n_t JSON_stringify response this)
  = if truthy (prop response "success") && truthy (prop response "file")
    then <["file" := prop response "file"]> (_data this)
    else _data this.
Proof.
  unfold onUpload.
  destruct (truthy (prop response "success") && truthy (prop response "file"))
    eqn:Hr; [|reflexivity].
  apply andb_prop in Hr as [_ Hr]. by rewrite set_image_data, Hr.
Qed.

(** The data that [setTune] leaves depends on the data and on the flag. *)
Lemma setTune_data (tuneName : string) (v : value) (this : ImageTool) :
  _data (setTune tuneName v this)
  = if startsWith tuneName "size" then
      if negb (isDataInit this) then _data this
      else if truthy v
           then <["size" := VString (replace tuneName "size" "")]> (_data this)
           else <["size" := VUndefined]> (_data this)
    else assign tuneName v (_data this).
Proof.
  unfold setTune. rewrite emit_data.
  destruct (startsWith tuneName "size"); [|done].
  destruct (negb (isDataInit this)); [done|].
  destruct (truthy v); cbn [_data set_prop]; rewrite assign_ne by done; [|done].
  by rewrite deactivate_others_data.
Qed.

(** X10.  The last successful response wins: when a response with
    [success] and a [file] arrives, the block data is what it would be had
    the response before it, of either kind, never come. *)
Theorem last_upload_wins (this : ImageTool) (earlier later : gmap string value) :
  truthy (prop later "success") && truthy (prop later "file") = true →
  _data (onUpload i18n_t JSON_stringify later
           (onUpload i18n_t JSON_stringify earlier this))
  = _data (onUpload i18n_t JSON_stringify later this).
Proof.
  intros Hl. rewrite !(onUpload_data later), Hl, (onUpload_data earlier).
  case_match; [|done]. by rewrite insert_insert_eq.
Qed.

(** X11.  A response and a tune other than [file] touch different fields:
    the block data is the same whether [onUpload] comes before or after
    [setTune]. *)
Theorem upload_and_tune_commute (this : ImageTool) (response : gmap string value)
    (tuneName : string) (v : value) :
  tuneName ≠ "file" →
  _data (setTune tuneName v (onUpload i18n_t JSON_stringify response this))
  = _data (onUpload i18n_t JSON_stringify response (setTune tuneName v this)).
Proof.
  intros Hn. rewrite setTune_data, onUpload_init, !onUpload_data, setTune_data.
  destruct (truthy (prop response "success") && truthy (prop response "file"));
    [|done].
  destruct (startsWith tuneName "size").
  - destruct (negb (isDataInit this)); [done|].
    destruct (truthy v); by apply insert_insert_ne.
  - by apply assign_insert_commute.
Qed.

End UploadOrder.

Lemma last_upload_wins_witness :
  _data (onUpload id (fun _ => "{}") empty_url_response
           (onUpload id (fun _ => "{}") png_response cat_block))
  = _data (onUpload id (fun _ => "{}") empty_url_response cat_block).
Proof. apply last_upload_wins. reflexivity. Defined.

Lemma upload_and_tune_commute_witness :
  _data (setTune "size30" (VBool true) (onUpload id (fun _ => "{}") png_response cat_block))
  = _data (onUpload id (fun _ => "{}") png_response
             (setTune "size30" (VBool true) cat_block)).
Proof. apply upload_and_tune_commute. discriminate. Defined.

(** ** The rendering surface and the data agree *)

Section Sync.

Implicit Types (this : ImageTool) (l : list effect) (n m : string) (v : value).

Lemma ui_status_snoc l (e : effect) m :
  ui_status (l ++ [e]) m
  = match e with
    | UiApplyTune n v => if String.eqb n m then Some v else ui_status l m
    | _ => ui_status l m
    end.
Proof. unfold ui_status. by rewrite fold_left_app. Qed.

Lemma ui_status_unmark_one l (o : string) m :
  ui_status (l ++ unmark o) m
  = if String.eqb o m then Some (VBool false) else ui_status l m.
Proof.
  unfold unmark.
  assert (Hsplit : (l ++ [DomRemoveActiveMarker o; UiApplyTune o (VBool false)]
                    = (l ++ [DomRemoveActiveMarker o])
                        ++ [UiApplyTune o (VBool false)])%list)
    by (by rewrite <- app_assoc).
  by rewrite Hsplit, !ui_status_snoc.
Qed.

Lemma ui_status_unmark l (others : list string) m :
  ui_status (l ++ flat_map unmark others) m
  = if existsb (String.eqb m) others then Some (VBool false) else ui_status l m.
Proof.
  revert l. induction others as [|o others IH]; intros l.
  - cbn [flat_map existsb]. by rewrite app_nil_r.
  - cbn [flat_map existsb].
    rewrite app_assoc, IH, ui_status_unmark_one, (String.eqb_sym m o).
    destruct (String.eqb o m); cbn [orb]; [|done].
    by destruct (existsb (String.eqb m) others).
Qed.

Lemma existsb_filter (p : string → bool) (names : list string) m :
  existsb (String.eqb m) (List.filter p names)
  = existsb (String.eqb m) names && p m.
Proof.
  induction names as [|x names IH]; [done|].
  cbn [List.filter existsb]. destruct (p x) eqn:Hp; cbn [existsb]; rewrite IH.
  - destruct (String.eqb_spec m x) as [->|]; cbn [orb andb]; [|done].
    by rewrite Hp.
  - destruct (String.eqb_spec m x) as [->|]; cbn [orb andb]; [|done].
    rewrite Hp, andb_false_r. done.
Qed.

(** Two size tunes that are both active have the same name. *)
Lemma active_size_unique this n m :
  startsWith n "size" = true → startsWith m "size" = true →
  truthy (isTuneActive this n) = true → truthy (isTuneActive this m) = true →
  n = m.
Proof.
  unfold isTuneActive. intros -> ->. cbn [negb].
  destruct (decide (prop (get_data this) "size" = VUndefined)); [done|].
  cbn [truthy]. rewrite !String.eqb_eq. congruence.
Qed.

Lemma built_in_name_kind m :
  built_in_name m = true →
  (m = "withBorder" ∧ startsWith m "size" = false
   ∧ existsb (String.eqb m) size_tunes = false) ∨
  (startsWith m "size" = true ∧ existsb (String.eqb m) size_tunes = true).
Proof.
  intros Hm. destruct (built_in_name_cases m Hm) as [->|[->|[->|[->| ->]]]];
    [left | right..]; by repeat split.
Qed.

Lemma isTuneActive_insert_other this that n v m :
  startsWith n "size" = false → n ≠ m →
  _data that = <[n := v]> (_data this) →
  isTuneActive that m = isTuneActive this m.
Proof.
  intros Hn Hne Hd. unfold isTuneActive, get_data. rewrite Hd.
  assert (Hsz : n ≠ "size") by (intros ->; discriminate Hn).
  by rewrite !prop_insert_ne.
Qed.

Lemma isTuneActive_assign_other this that n v m :
  startsWith n "size" = false → n ≠ m →
  _data that = assign n v (_data this) →
  isTuneActive that m = isTuneActive this m.
Proof.
  intros Hn Hne Hd. unfold isTuneActive, get_data. rewrite Hd.
  assert (Hsz : n ≠ "size") by (intros ->; discriminate Hn).
  by rewrite !prop_assign_ne.
Qed.

Lemma in_sync_same this that m :
  ui_status (trace that) m = ui_status (trace this) m →
  isTuneActive that m = isTuneActive this m →
  in_sync this m → in_sync that m.
Proof. intros Hu Ha (v & Hv & Ht). exists v. by rewrite Hu, Ha. Qed.

(** [setTune] keeps the built-in tunes in sync, unless it switches off a
    size tune that is not the active one. *)
Lemma setTune_in_sync this n v :
  isDataInit this = true →
  (startsWith n "size" = true → truthy v = false →
   truthy (isTuneActive this n) = true) →
  (∀ m, built_in_name m = true → in_sync this m) →
  ∀ m, built_in_name m = true → in_sync (setTune n v this) m.
Proof.
  intros Hi Hoff Hsync m Hm.
  destruct (startsWith n "size") eqn:Hn.
  - destruct (truthy v) eqn:Hv.
    + (* a size tune is switched on *)
      assert (Hsize : prop (_data (setTune n v this)) "size"
                      = VString (replace n "size" ""))
        by (rewrite setTune_data_size_on by done; apply prop_insert_eq).
      assert (Htrace : ui_status (trace (setTune n v this)) m
                = if String.eqb n m then Some v
                  else if existsb (String.eqb m) size_tunes
                          && (negb (String.eqb m n)
                              && truthy (isTuneActive this m))
                       then Some (VBool false)
                       else ui_status (trace this) m).
      { unfold setTune. rewrite Hn, Hi, Hv. cbn [negb trace emit set_prop].
        rewrite deactivate_others_trace_eq, others_to_unmark_tunes.
        by rewrite ui_status_snoc, ui_status_unmark, existsb_filter. }
      destruct (String.eqb_spec n m) as [<-|Hne].
      * exists v. split; [done|]. rewrite Hv.
        rewrite (isTuneActive_set _ _ _ Hn Hsize).
        by rewrite bool_decide_eq_true_2.
      * destruct (built_in_name_kind m Hm) as [(-> & Hp & Hex)|[Hp Hex]].
        -- apply (in_sync_same this); [by rewrite Htrace, Hex | | by apply Hsync].
           rewrite !isTuneActive_field by done.
           apply setTune_prop_other. by rewrite Hn.
        -- rewrite Hex in Htrace. cbn [andb] in Htrace.
           assert (Hnm : String.eqb m n = false)
             by (apply String.eqb_neq; congruence).
           rewrite Hnm in Htrace. cbn [negb andb] in Htrace.
           assert (Hafter : isTuneActive (setTune n v this) m = VBool false).
           { rewrite (isTuneActive_set _ _ _ Hp Hsize). f_equal.
             apply bool_decide_eq_false_2. intros Heq. apply Hne.
             by rewrite (size_name_split _ Hn), (size_name_split _ Hp), Heq. }
           destruct (truthy (isTuneActive this m)) eqn:Hact.
           ++ exists (VBool false). by rewrite Hafter.
           ++ destruct (Hsync m Hm) as (w & Hw & Htw).
              exists w. rewrite Hafter. split; [by rewrite Htrace|].
              by rewrite Htw, Hact.
    + (* the active size tune is switched off *)
      specialize (Hoff eq_refl eq_refl).
      assert (Htrace : ui_status (trace (setTune n v this)) m
                = if String.eqb n m then Some v else ui_status (trace this) m).
      { rewrite setTune_trace_plain by (by rewrite Hv, andb_false_r).
        by rewrite ui_status_snoc. }
      assert (Hunset : prop (_data (setTune n v this)) "size" = VUndefined)
        by (rewrite setTune_data_size_off by done; apply prop_insert_eq).
      destruct (String.eqb_spec n m) as [<-|Hne].
      * exists v. split; [done|]. rewrite Hv.
        by rewrite (isTuneActive_unset _ _ Hn Hunset).
      * destruct (built_in_name_kind m Hm) as [(-> & Hp & Hex)|[Hp Hex]].
        -- apply (in_sync_same this); [done | | by apply Hsync].
           rewrite !isTuneActive_field by done.
           apply setTune_prop_other. by rewrite Hn.
        -- destruct (Hsync m Hm) as (w & Hw & Htw).
           exists w. split; [by rewrite Htrace|].
           rewrite (isTuneActive_unset _ _ Hp Hunset), Htw.
           destruct (truthy (isTuneActive this m)) eqn:Hact; [|done].
           destruct Hne. by apply (active_size_unique this).
  - (* a field tune *)
    assert (Htrace : ui_status (trace (setTune n v this)) m
              = if String.eqb n m then Some v else ui_status (trace this) m).
    { rewrite setTune_trace_plain by (by rewrite Hn).
      by rewrite ui_status_snoc. }
    destruct (String.eqb_spec n m) as [<-|Hne].
    + exists v. split; [done|].
      assert (Hk : n ≠ "__proto__") by (intros ->; discriminate Hm).
      rewrite isTuneActive_field, setTune_data_field by done.
      by rewrite prop_insert_eq.
    + apply (in_sync_same this); [done | | by apply Hsync].
      by apply (isTuneActive_assign_other _ _ n v);
        [ | | rewrite setTune_data_assign].
Qed.

Lemma tuneToggled_in_sync this n :
  isDataInit this = true →
  (∀ m, built_in_name m = true → in_sync this m) →
  ∀ m, built_in_name m = true → in_sync (tuneToggled n this) m.
Proof.
  intros Hi Hsync. unfold tuneToggled. apply setTune_in_sync; [done| |done].
  intros _. cbn [truthy]. by intros ->%negb_false_iff.
Qed.

Lemma ui_status_quiet l (l' : list effect) m :
  forallb quiet l' = true → ui_status (l ++ l') m = ui_status l m.
Proof.
  revert l. induction l' as [|e l' IH]; intros l Hq.
  - by rewrite app_nil_r.
  - cbn [forallb] in Hq. apply andb_prop in Hq as [He Hq].
    change (e :: l') with ([e] ++ l')%list.
    rewrite app_assoc, IH, ui_status_snoc by done. by destruct e.
Qed.

Lemma shown_quiet (file : value) : forallb quiet (shown file) = true.
Proof. destruct file as [| | |f|]; try done. cbn [shown]. by case_match. Qed.

Lemma ui_status_applied l (f : string → value) (ts : list ActionConfig) m :
  ui_status (l ++ List.map (fun t => UiApplyTune (name t) (f (name t))) ts) m
  = if existsb (String.eqb m) (List.map name ts) then Some (f m)
    else ui_status l m.
Proof.
  revert l. induction ts as [|t ts IH]; intros l.
  - cbn [List.map existsb]. by rewrite app_nil_r.
  - cbn [List.map existsb].
    change (UiApplyTune (name t) (f (name t))
              :: List.map (fun t0 => UiApplyTune (name t0) (f (name t0))) ts)
      with ([UiApplyTune (name t) (f (name t))]
              ++ List.map (fun t0 => UiApplyTune (name t0) (f (name t0))) ts)%list.
    rewrite app_assoc, IH, ui_status_snoc, (String.eqb_sym m (name t)).
    destruct (String.eqb_spec (name t) m) as [->|]; cbn [orb]; [|done].
    by destruct (existsb (String.eqb m) (List.map name ts)).
Qed.

Lemma constructor_in_sync (data : gmap string value) m :
  built_in_name m = true → in_sync (constructor data) m.
Proof.
  intros Hm. exists (isTuneActive (constructor data) m). split; [|done].
  unfold constructor at 1. rewrite set_data_trace by reflexivity.
  cbn [trace app]. fold (constructor data).
  rewrite (ui_status_applied _ (isTuneActive (constructor data))).
  unfold built_in_name in Hm. by rewrite Hm.
Qed.

End Sync.

Section SyncCalls.

Variable i18n_t : string -> string.
Variable JSON_stringify : gmap string value -> string.

Lemma run_call_in_sync (this : ImageTool) (c : call) :
  isDataInit this = true ∧ (∀ m, built_in_name m = true → in_sync this m) →
  keeps_markers c = true →
  isDataInit (run_call i18n_t JSON_stringify this c) = true ∧
  (∀ m, built_in_name m = true →
        in_sync (run_call i18n_t JSON_stringify this c) m).
Proof.
  intros [Hi Hsync] Hc. split; [by rewrite run_call_init|].
  destruct c as [n v|n|response|errorText|src]; cbn [run_call keeps_markers] in *.
  - apply setTune_in_sync; [done| |done].
    intros Hn Hv. by rewrite Hn, Hv in Hc.
  - by apply tuneToggled_in_sync.
  - intros m Hm. unfold onUpload. case_match.
    + apply (in_sync_same this); [| |by apply Hsync].
      * rewrite set_image_trace. apply ui_status_quiet, shown_quiet.
      * apply (isTuneActive_insert_other _ _ "file"
                 (if truthy (prop response "file") then prop response "file"
                  else VFile (mkFileRef "" [])));
          [reflexivity| |apply set_image_data].
        intros <-. discriminate Hm.
    + apply (in_sync_same this); [|done|by apply Hsync].
      unfold uploadingFailed, emit. cbn [trace].
      by rewrite !ui_status_snoc.
  - intros m Hm. apply (in_sync_same this); [|done|by apply Hsync].
    unfold uploadingFailed, emit. cbn [trace]. by rewrite !ui_status_snoc.
  - intros m Hm. apply (in_sync_same this); [|done|by apply Hsync].
    unfold uploadUrl, emit. cbn [trace]. by rewrite !ui_status_snoc.
Qed.

(** X12.  The rendering surface and the data agree on the built-in tunes:
    after the construction from any saved data and any sequence of calls
    other than a direct [setTune] that switches a size tune off, the last
    [applyTune] for each built-in tune carries the activity that
    [isTuneActive] reports.  A direct switch-off of a size tune breaks this
    for any other size tune that was active and in sync. *)
Theorem surface_in_sync (data : gmap string value) (calls : list call) :
  Forall (fun c => keeps_markers c = true) calls →
  (∀ tune, In tune tunes →
     ∃ v,
       ui_status (trace (run_calls i18n_t JSON_stringify calls (constructor data)))
         (name tune) = Some v ∧
       truthy v
       = truthy (isTuneActive
                   (run_calls i18n_t JSON_stringify calls (constructor data))
                   (name tune))) ∧
  (∀ this n m,
     isDataInit this = true →
     startsWith n "size" = true → startsWith m "size" = true → n ≠ m →
     truthy (isTuneActive this m) = true → in_sync this m →
     ¬ in_sync (setTune n (VBool false) this) m).
Proof.
  intros Hall. split.
  - intros tune Hin.
    assert (Hm : built_in_name (name tune) = true).
    { unfold built_in_name. apply existsb_exists. exists (name tune).
      split; [by apply in_map | apply String.eqb_refl]. }
    revert Hm. generalize (name tune). clear tune Hin.
    apply (run_calls_invariant i18n_t JSON_stringify
             (fun st => isDataInit st = true
                        ∧ ∀ m, built_in_name m = true → in_sync st m)
             keeps_markers);
      [apply run_call_in_sync | done |].
    split; [reflexivity|]. intros m. apply constructor_in_sync.
  - intros this n m Hi Hn Hp Hne Hact (w & Hw & Htw) (w' & Hw' & Htw').
    rewrite setTune_trace_plain in Hw' by apply andb_false_r.
    rewrite ui_status_snoc in Hw'.
    assert (Hnm : String.eqb n m = false) by (by apply String.eqb_neq).
    rewrite Hnm, Hw in Hw'. injection Hw' as <-.
    rewrite (isTuneActive_unset _ _ Hp) in Htw'.
    + rewrite Htw, Hact in Htw'. discriminate Htw'.
    + rewrite setTune_data_size_off by done. apply prop_insert_eq.
Qed.

End SyncCalls.

Lemma surface_in_sync_witness :
  let calls := [ TuneToggled "size30"; TuneToggled "withBorder";
                 OnUpload png_response; TuneToggled "size70";
                 SetTune "size100" (VBool true); TuneToggled "size100" ] in
  let b := run_calls id (fun _ => "{}") calls cat_block in
  (∃ v, ui_status (trace b) "size70" = Some v
        ∧ truthy v = truthy (isTuneActive b "size70")) ∧
  ¬ in_sync (setTune "size30" (VBool false) cat_block) "size50".
Proof.
  intros calls b.
  destruct (surface_in_sync id (fun _ => "{}")
              (ImageToolData.to_object cat_data) calls) as [Hsync Hbreak].
  - repeat constructor.
  - split.
    + apply (Hsync (mkActionConfig "size70" "Resize to 70%" true)).
      simpl. auto.
    + apply Hbreak; [reflexivity | reflexivity | reflexivity | discriminate
                    | reflexivity | ].
      exists (VBool true). split; reflexivity.
Defined.

(** ** The tunes menu and the paste handler *)

Lemma built_in_tune_not_proto (i : nat) (tune : ActionConfig) :
  nth_error tunes i = Some tune → name tune ≠ "__proto__".
Proof.
  intros Hnth Heq.
  assert (Hb : built_in_name (name tune) = true).
  { unfold built_in_name. apply existsb_exists. exists (name tune).
    split; [apply in_map; by apply nth_error_In in Hnth | apply String.eqb_refl]. }
  rewrite Heq in Hb. discriminate Hb.
Qed.

Section MenuFacts.

Variable i18n_t : string -> string.

Lemma renderSettings_nth (actions : option (list ActionEntry)) (this : ImageTool)
    (i : nat) (tune : ActionConfig) :
  nth_error tunes i = Some tune →
  nth_error (renderSettings i18n_t actions this) i
  = Some (TunesMenuItem.mk (i18n_t (title tune)) (name tune) (toggle tune)
            (isTuneActive this (name tune)) (activate (built_in tune))).
Proof.
  intros Hi. unfold renderSettings.
  rewrite nth_error_map, nth_error_app1.
  - by rewrite nth_error_map, Hi.
  - rewrite length_map. apply nth_error_Some. by rewrite Hi.
Qed.

Lemma filter_map_length {A B} (p : B → bool) (g : A → B) (l : list A) :
  length (List.filter p (List.map g l))
  = length (List.filter (fun x => p (g x)) l).
Proof.
  induction l as [|x l IH]; [done|]. cbn [List.map List.filter].
  destruct (p (g x)); cbn [length]; by rewrite IH.
Qed.

Lemma firstn_renderSettings (actions : option (list ActionEntry))
    (this : ImageTool) :
  firstn (length tunes) (renderSettings i18n_t actions this)
  = renderSettings i18n_t None this.
Proof.
  unfold renderSettings. cbn [default]. rewrite app_nil_r, List.map_app.
  rewrite firstn_app.
  assert (Hlen : length (List.map
                           (fun tune =>
                              TunesMenuItem.mk (i18n_t (title (descriptor tune)))
                                (name (descriptor tune)) (toggle (descriptor tune))
                                (isTuneActive this (name (descriptor tune)))
                                (activate tune))
                           (List.map built_in tunes))
                 = length tunes) by (by rewrite !length_map).
  rewrite Hlen, Nat.sub_diag, firstn_O, app_nil_r.
  rewrite <- Hlen at 1. apply firstn_all.
Qed.

(** X13.  The tunes menu lists the built-in tunes first and the actions of
    the user after them, in their order.  Among the entries of the built-in
    tunes at most one size tune is shown as active.  Once the flag is set,
    activating the entry of a built-in tune and rendering the menu again
    shows that entry with the opposite activity. *)
Theorem renderSettings_menu (actions : option (list ActionEntry))
    (this : ImageTool) :
  List.map TunesMenuItem.name (renderSettings i18n_t actions this)
    = (List.map name tunes
       ++ List.map (fun a => name (descriptor a)) (default [] actions))%list ∧
  (length
     (List.filter
        (fun entry => startsWith (TunesMenuItem.name entry) "size"
                      && truthy (TunesMenuItem.isActive entry))
        (firstn (length tunes) (renderSettings i18n_t actions this))) ≤ 1)%nat ∧
  (∀ (i : nat) (entry : TunesMenuItem.t),
     isDataInit this = true →
     (i < length tunes)%nat →
     nth_error (renderSettings i18n_t actions this) i = Some entry →
     ∃ entry',
       nth_error
         (renderSettings i18n_t actions (TunesMenuItem.onActivate entry this)) i
       = Some entry' ∧
       TunesMenuItem.name entry' = TunesMenuItem.name entry ∧
       TunesMenuItem.isActive entry'
       = VBool (negb (truthy (TunesMenuItem.isActive entry)))).
Proof.
  split; [|split].
  - unfold renderSettings. rewrite List.map_map, List.map_app, List.map_map.
    reflexivity.
  - rewrite firstn_renderSettings. unfold renderSettings. cbn [default].
    rewrite app_nil_r, List.map_map, filter_map_length.
    cbn [TunesMenuItem.name TunesMenuItem.isActive built_in descriptor].
    rewrite <- (filter_map_length
                  (fun n => startsWith n "size" && truthy (isTuneActive this n))
                  name tunes).
    apply active_size_tunes_le_1.
  - intros i entry Hi Hlt Hentry.
    destruct (nth_error tunes i) as [tune|] eqn:Htune;
      [|by apply nth_error_None in Htune; lia].
    rewrite (renderSettings_nth _ _ _ _ Htune) in Hentry.
    injection Hentry as <-.
    eexists. split; [by apply renderSettings_nth|].
    split; [reflexivity|].
    cbn [TunesMenuItem.isActive TunesMenuItem.onActivate].
    unfold activate. cbn [action built_in descriptor].
    apply tuneToggled_read_back; [done|]. by apply (built_in_tune_not_proto i).
Qed.

End MenuFacts.

Lemma renderSettings_menu_witness :
  ∃ entry',
    nth_error
      (renderSettings id None (tuneToggled "size30" cat_block)) 1
    = Some entry' ∧
    TunesMenuItem.isActive entry' = VBool true.
Proof.
  destruct (renderSettings_menu id None cat_block) as (_ & _ & Hflip).
  destruct (Hflip 1%nat
              (TunesMenuItem.mk "Resize to 30%" "size30" true (VBool false)
                 (activate (built_in (mkActionConfig "size30" "Resize to 30%" true)))))
    as (entry' & Hnth & _ & Hact); [reflexivity | simpl; lia | reflexivity |].
  exists entry'. split; [exact Hnth | exact Hact].
Defined.

Section PasteFacts.

Variable Blob : Type.
Variable fetch_blob : string -> option Blob.

(** X14.  A paste never touches the block data.  It starts at most one
    upload, by URL or by file.  An upload by URL comes right after the
    preloader was shown for the same URL.  A pasted tag whose source is a
    [blob:] URL is never uploaded by URL: it is fetched, and uploaded by
    file when the fetch succeeds.  An event of another type starts
    nothing. *)
Theorem onPaste_effects (event : PasteEvent Blob) (this : ImageTool) :
  let result := onPaste Blob fetch_blob event this in
  _data (fst result) = _data this ∧
  isDataInit (fst result) = isDataInit this ∧
  ∃ added : list effect,
    trace (fst result) = (trace this ++ added)%list ∧
    (length (uploads_by_url added) + file_uploads Blob (snd result) ≤ 1)%nat ∧
    (∀ src, In src (uploads_by_url added) →
            added = [UiShowPreloader src; UploaderUploadByUrl src]) ∧
    (∀ src, event = PasteTag Blob src → startsWith src "blob:" = true →
            uploads_by_url added = [] ∧ In (Fetch Blob src) (snd result)) ∧
    (∀ type, event = PasteOther Blob type → added = [] ∧ snd result = []).
Proof.
  intros result. subst result.
  assert (Hurl : ∀ src,
            ∃ added : list effect,
              trace (uploadUrl src this) = (trace this ++ added)%list ∧
              added = [UiShowPreloader src; UploaderUploadByUrl src]).
  { intros src. eexists. split; [|reflexivity].
    unfold uploadUrl, emit. cbn [trace]. by rewrite <- app_assoc. }
  destruct event as [src|data|file|type]; cbn [onPaste].
  - destruct (startsWith src "blob:") eqn:Hblob.
    + destruct (fetch_blob src) as [file|]; cbn [uploadFile fst snd];
        (split; [done|]; split; [done|]; exists [];
         split; [by rewrite app_nil_r|];
         split; [cbn; lia|]; split; [by intros ? []|];
         split; [|done]; intros ? [= <-] _; split; [done|]; by left).
    + cbn [fst snd]. split; [done|]. split; [done|].
      destruct (Hurl src) as (added & Ht & ->). eexists. split; [exact Ht|].
      split; [cbn; lia|].
      split; [intros ? [<-|[]]; done|].
      split; [|done]. intros ? [= <-] Hb. by rewrite Hb in Hblob.
  - cbn [fst snd]. split; [done|]. split; [done|].
    destruct (Hurl data) as (added & Ht & ->). eexists. split; [exact Ht|].
    split; [cbn; lia|]. split; [intros ? [<-|[]]; done|]. by split.
  - cbn [uploadFile fst snd]. split; [done|]. split; [done|]. exists [].
    split; [by rewrite app_nil_r|]. split; [cbn; lia|].
    split; [by intros ? []|]. by split.
  - cbn [fst snd]. split; [done|]. split; [done|]. exists [].
    split; [by rewrite app_nil_r|]. split; [cbn; lia|].
    split; [by intros ? []|]. split; [done|]. by intros ? _.
Qed.

End PasteFacts.

Lemma onPaste_effects_witness :
  In (Fetch nat "blob:http://x/1")
     (snd (onPaste nat (fun _ => Some 7%nat) (PasteTag nat "blob:http://x/1")
             cat_block)).
Proof.
  pose proof (onPaste_effects nat (fun _ => Some 7%nat)
                (PasteTag nat "blob:http://x/1") cat_block) as H.
  cbv zeta in H. destruct H as (_ & _ & added & _ & _ & _ & Hblob & _).
  destruct (Hblob "blob:http://x/1") as [_ Hin]; [reflexivity | reflexivity |].
  exact Hin.
Defined.

(** ** What the construction reads, and what the size tunes write *)

(** X15.  The construction reads the [file] and the [size] of the saved
    data and nothing else: two saved data that agree on these two fields
    give the same block, with the same data and the same calls on the
    rendering surface, whatever their captions, borders and other fields. *)
Theorem constructor_reads_file_and_size (data data' : gmap string value) :
  prop data "file" = prop data' "file" →
  prop data "size" = prop data' "size" →
  constructor data = constructor data'.
Proof.
  intros Hf Hs. rewrite !constructor_unfold. by rewrite Hf, Hs.
Qed.

Lemma constructor_reads_file_and_size_witness :
  constructor (ImageToolData.to_object cat_data)
  = constructor
      (ImageToolData.to_object
         (ImageToolData.mk "Another caption" false (Some ImageToolData.Size50)
            (mkFileRef "http://x/y.png" [("width", "640")]))).
Proof. apply constructor_reads_file_and_size; reflexivity. Defined.

(** X16.  Once the flag is set, the size tunes share the single field
    [data.size]: a [setTune] on a size tune overwrites what an earlier
    [setTune] on any size tune has written, so only the last one counts, and
    repeating a [setTune] changes nothing in the data. *)
Theorem setTune_size_last_wins (this : ImageTool) (n m : string) (v w : value) :
  isDataInit this = true →
  startsWith n "size" = true →
  startsWith m "size" = true →
  _data (setTune m w (setTune n v this)) = _data (setTune m w this) ∧
  _data (setTune n v (setTune n v this)) = _data (setTune n v this).
Proof.
  intros Hi Hn Hm.
  assert (Hlast : ∀ a b x y, startsWith a "size" = true → startsWith b "size" = true →
            _data (setTune b y (setTune a x this)) = _data (setTune b y this)).
  { intros a b x y Ha Hb.
    rewrite (setTune_data b y (setTune a x this)), setTune_init.
    rewrite (setTune_data b y this), (setTune_data a x this).
    rewrite Ha, Hb, Hi. cbn [negb].
    destruct (truthy y), (truthy x); by rewrite insert_insert_eq. }
  split; [by apply Hlast|].
  rewrite Hlast by done. reflexivity.
Qed.

Lemma setTune_size_last_wins_witness :
  _data (setTune "size70" (VBool true) (setTune "size30" (VBool true) cat_block))
  = _data (setTune "size70" (VBool true) cat_block).
Proof.
  destruct (setTune_size_last_wins cat_block "size30" "size70" (VBool true)
              (VBool true)) as [Hlast _]; [reflexivity | reflexivity | reflexivity |].
  exact Hlast.
Defined.
